(** * mlp_483: a one-hidden-layer spam classifier, its loss, optimizer and loops

    Shallow embedding of [mlp_483.py].

    Conventions.
    - [torch] tensors of dtype float32 are modelled over the real numbers
      [R]: a rank-1 tensor is a [list R], a rank-2 tensor a list of rows.
      Rounding is not modelled.
    - [numpy] float64 scalars produced by the class-weight computation are
      modelled by exact rationals extended with the IEEE special values a
      division by zero produces ([float64]).
    - Class labels are the non-negative integers [LabelEncoder] emits ([nat]).
    - A Python exception is a value of [exn]; a call that may raise returns
      [result]. Code that mutates the model or the optimizer runs in the
      state-and-exception monad [M].
    - Console output of the loops ([print], library warnings) and wall-clock
      time are not modelled; [print_confusion_matrix] returns the lines it
      prints. *)

From Stdlib Require Import List Arith ZArith QArith Qabs Reals Lra Lia Bool.
Import ListNotations.

Close Scope Q_scope.
Set Implicit Arguments.

(** ** Exceptions *)

Inductive exn : Type :=
| IndexError
| ValueError
| RuntimeError
| ZeroDivisionError
| UnboundLocalError.

Inductive result (A : Type) : Type :=
| Ok (a : A)
| Raise (e : exn).
Arguments Ok {A} a.
Arguments Raise {A} e.

Definition rbind {A B : Type} (r : result A) (k : A -> result B) : result B :=
  match r with
  | Ok a => k a
  | Raise e => Raise e
  end.

Declare Scope result_scope.
Delimit Scope result_scope with result.
Notation "'let?' x ':=' r 'in' k" := (rbind r (fun x => k))
  (at level 10, x pattern, r at level 100, k at level 200) : result_scope.
Open Scope result_scope.

Definition raises {A : Type} (r : result A) : Prop :=
  match r with
  | Ok _ => False
  | Raise _ => True
  end.

(** Python's [a[i]] on a sequence, for a non-negative index. *)
Definition getitem {A : Type} (a : list A) (i : nat) : result A :=
  match nth_error a i with
  | Some x => Ok x
  | None => Raise IndexError
  end.

(** ** numpy: [bincount] and true division of integer scalars *)

Module Numpy.

(** A float64 value as it comes out of [int / int64]. *)
Inductive float64 : Type :=
| Finite (q : Q)
| PosInf
| NegInf
| NaN.

(** [a / b] for integer scalars: numpy's [true_divide]. A zero divisor
    does not raise; the quotient is [inf], [-inf] or [nan] (numpy only
    emits a [RuntimeWarning] on the console). *)
Definition true_divide (a b : Z) : float64 :=
  match b with
  | Z0 =>
      match a with
      | Z0 => NaN
      | Zpos _ => PosInf
      | Zneg _ => NegInf
      end
  | Zpos p => Finite (a # p)
  | Zneg p => Finite (Z.opp a # p)
  end.

(** [counts[i] += 1], on an array long enough to hold index [i]. *)
Fixpoint incr (counts : list Z) (i : nat) : list Z :=
  match counts, i with
  | [], _ => []
  | c :: cs, O => (c + 1)%Z :: cs
  | c :: cs, S j => c :: incr cs j
  end.

(** [np.bincount(x)]: an array of length [max(x) + 1] (empty for an empty
    [x]) whose entry [c] counts the occurrences of [c]. *)
Definition bincount (x : list nat) : list Z :=
  match x with
  | [] => []
  | _ :: _ => fold_left incr x (repeat 0%Z (S (list_max x)))
  end.

End Numpy.

(** ** The class weights of the loss (module level of the script) *)

Section ClassWeights.

Variable y_train : list nat.

Definition class_counts : list Z := Numpy.bincount y_train.
Definition total_samples : Z := Z.of_nat (length y_train).

Definition w0 : result Numpy.float64 :=
  let? c0 := getitem class_counts 0 in
  Ok (Numpy.true_divide total_samples (2 * c0)).

Definition w1 : result Numpy.float64 :=
  let? c1 := getitem class_counts 1 in
  Ok (Numpy.true_divide total_samples (2 * c1)).

(** The two assignments in program order: the first exception aborts. *)
Definition weights : result (Numpy.float64 * Numpy.float64) :=
  let? a := w0 in
  let? b := w1 in
  Ok (a, b).

End ClassWeights.

(** [count(label == c)] *)
Definition count (labels : list nat) (c : nat) : Z :=
  Z.of_nat (count_occ Nat.eq_dec labels c).


(** ** torch: tensors, layers, the loss and the optimizer *)

Module Torch.

Local Open Scope R_scope.

(** A rank-1 tensor and a rank-2 tensor (a list of rows). *)
Abbreviation vec := (list R) (only parsing).
Abbreviation matrix := (list (list R)) (only parsing).

Fixpoint zipWith {A B C : Type} (f : A -> B -> C) (a : list A) (b : list B)
  : list C :=
  match a, b with
  | x :: a', y :: b' => f x y :: zipWith f a' b'
  | _, _ => []
  end.

Definition sum (x : vec) : R := fold_right Rplus 0 x.

(** What every tensor offers the optimizer: an element-wise binary
    operation against a tensor of the same shape. *)
Class Elementwise (T : Type) : Type :=
  { map2 : (R -> R -> R) -> T -> T -> T }.

#[export] Instance Elementwise_vec : Elementwise vec :=
  { map2 := fun f a b => zipWith f a b }.

#[export] Instance Elementwise_matrix : Elementwise matrix :=
  { map2 := fun f a b => zipWith (zipWith f) a b }.

(** A parameter tensor with its gradient accumulator ([p.grad], [None]
    until a backward pass writes it). *)
Record Param (T : Type) : Type := mkParam
  { data : T;
    grad : option T }.
Arguments mkParam {T} data grad.

(** *** [nn.Linear] *)

(** [weight] has shape [out_features, in_features], [bias] has shape
    [out_features]. *)
Record Linear : Type := mkLinear
  { in_features : nat;
    out_features : nat;
    weight : Param matrix;
    bias : Param vec }.

Definition dot (x w : vec) : R := sum (zipWith Rmult x w).

(** [x @ weight.T + bias] on a batch of rows; the last dimension of the
    input must be [in_features]. *)
Definition linear_row (l : Linear) (x : vec) : vec :=
  zipWith Rplus (map (dot x) (data (weight l))) (data (bias l)).

Definition linear (l : Linear) (x : matrix) : result matrix :=
  if forallb (fun row => length row =? in_features l)%nat x
  then Ok (map (linear_row l) x)
  else Raise RuntimeError.

(** *** [torch.nn.functional.relu] *)

Definition relu (x : matrix) : matrix := map (map (Rmax 0)) x.

(** *** [nn.CrossEntropyLoss(weight=...)]: [LogSoftmax] then [NLLLoss] *)

Definition max_of (x : vec) : R :=
  match x with
  | [] => 0
  | a :: x' => fold_left Rmax x' a
  end.

(** [log_softmax] along the class dimension, the row maximum subtracted
    before exponentiating. *)
Definition log_softmax (x : vec) : vec :=
  let m := max_of x in
  let s := sum (map (fun v => exp (v - m)) x) in
  map (fun v => v - m - ln s) x.

(** One sample of the weighted negative log-likelihood: the pair
    [(- weight[t] * input[t], weight[t])]. *)
Definition nll_sample (weight : vec) (input : vec) (t : nat)
  : result (R * R) :=
  if negb (length input =? length weight)%nat then Raise RuntimeError
  else
    match nth_error input t, nth_error weight t with
    | Some x, Some w => Ok (- (w * x), w)
    | _, _ => Raise IndexError
    end.

Fixpoint nll_sums (weight : vec) (samples : list (vec * nat))
  : result (R * R) :=
  match samples with
  | [] => Ok (0, 0)
  | (input, t) :: rest =>
      let? (l, w) := nll_sample weight input t in
      let? (ls, ws) := nll_sums weight rest in
      Ok (l + ls, w + ws)
  end.

(** [reduction='mean'] with class weights divides the sum of the weighted
    sample losses by the sum of the weights of the targets. (When that sum
    is zero, as on an empty batch, torch returns [nan]; the quotient below
    has no meaning then and the statements about the loss exclude it.) *)
Definition nll_loss (weight : vec) (input : matrix) (target : list nat)
  : result R :=
  if negb (length input =? length target)%nat then Raise ValueError
  else
    let? (num, den) := nll_sums weight (combine input target) in
    Ok (num / den).

Definition CrossEntropyLoss (weight : vec) (input : matrix)
  (target : list nat) : result R :=
  nll_loss weight (map log_softmax input) target.

(** *** [optim.SGD(params, lr, momentum)] *)

(** The update of one parameter tensor in [SGD.step], with the defaults
    [dampening=0], [weight_decay=0], [nesterov=False]. [buf] is the
    parameter's [momentum_buffer], [None] before its first step. *)
Definition sgd_buf {T : Type} `{Elementwise T} (momentum : R)
  (buf : option T) (g : T) : T :=
  match buf with
  | None => g
  | Some b => map2 (fun b g => momentum * b + g) b g
  end.

Definition sgd_param {T : Type} `{Elementwise T} (lr momentum : R)
  (p : Param T) (buf : option T) : Param T * option T :=
  match grad p with
  | None => (p, buf)
  | Some g =>
      let b := sgd_buf momentum buf g in
      (mkParam (map2 (fun p b => p + - lr * b) (data p) b) (grad p),
       Some b)
  end.

(** *** [torch.max(output, 1)]: the index of the first maximal entry *)

Fixpoint argmax_from (best : R) (best_i : nat) (i : nat) (x : vec) : nat :=
  match x with
  | [] => best_i
  | v :: x' =>
      if Rlt_dec best v then argmax_from v i (S i) x'
      else argmax_from best best_i (S i) x'
  end.

Definition argmax (x : vec) : result nat :=
  match x with
  | [] => Raise IndexError
  | v :: x' => Ok (argmax_from v 0%nat 1%nat x')
  end.

Fixpoint argmax_rows (x : matrix) : result (list nat) :=
  match x with
  | [] => Ok []
  | row :: x' =>
      let? i := argmax row in
      let? js := argmax_rows x' in
      Ok (i :: js)
  end.

(** [(predictions == labels).sum().item()], with the broadcasting of a
    one-element operand. *)
Definition count_eq (a b : list nat) : nat :=
  length (filter (fun p => fst p =? snd p)%nat (combine a b)).

Definition eq_sum (predictions labels : list nat) : result nat :=
  if (length predictions =? length labels)%nat
  then Ok (count_eq predictions labels)
  else
    match predictions, labels with
    | [p], _ => Ok (count_eq (repeat p (length labels)) labels)
    | _, [l] => Ok (count_eq predictions (repeat l (length predictions)))
    | _, _ => Raise RuntimeError
    end.

End Torch.

(** ** sklearn.metrics *)

Module Sklearn.

Definition count_pairs (f : nat -> nat -> bool) (y_true y_pred : list nat)
  : nat :=
  length (filter (fun p => f (fst p) (snd p)) (combine y_true y_pred)).

Definition true_positives (pos_label : nat) (y_true y_pred : list nat) : nat :=
  count_pairs (fun t p => (t =? pos_label) && (p =? pos_label)) y_true y_pred.

Definition false_positives (pos_label : nat) (y_true y_pred : list nat)
  : nat :=
  count_pairs (fun t p => negb (t =? pos_label) && (p =? pos_label))
    y_true y_pred.

(** [precision_score(y_true, y_pred, zero_division=...)] with the defaults
    [pos_label=1], [average='binary']. The two sequences must have the same
    length and hold at least one sample (the input validation raises
    [ValueError] on an array with no sample), hold at most two distinct
    labels between them, and [pos_label] must be one of them when there are
    two. *)
Definition precision_score (y_true y_pred : list nat) (zero_division : Q)
  : result Q :=
  let pos_label := 1 in
  if negb (length y_true =? length y_pred) then Raise ValueError
  else if length y_true =? 0 then Raise ValueError
  else
    let present_labels := nodup Nat.eq_dec (y_true ++ y_pred) in
    if 2 <? length present_labels then Raise ValueError
    else if negb (existsb (Nat.eqb pos_label) present_labels)
            && (2 <=? length present_labels)
    then Raise ValueError
    else
      let tp := true_positives pos_label y_true y_pred in
      let fp := false_positives pos_label y_true y_pred in
      match tp + fp with
      | O => Ok zero_division
      | S d => Ok (Z.of_nat tp # Pos.of_succ_nat d)%Q
      end.

End Sklearn.

(** ** The classifier *)

Import Torch.

Record MLP : Type := mkMLP
  { hidden1 : Linear;
    output : Linear;
    training : bool }.

(** [MLP.forward] *)
Definition forward (self : MLP) (x : matrix) : result matrix :=
  let? h := linear (hidden1 self) x in
  let h1_out := relu h in
  linear (output self) h1_out.

(** The shapes [MLP(num_input, hidden1_size, num_classes)] constructs. *)
Definition has_shape (m : matrix) (rows cols : nat) : Prop :=
  length m = rows /\ Forall (fun row => length row = cols) m.

Definition Linear_shape (l : Linear) (n_in n_out : nat) : Prop :=
  in_features l = n_in /\ out_features l = n_out /\
  has_shape (data (weight l)) n_out n_in /\
  length (data (bias l)) = n_out.

Definition MLP_shape (m : MLP) (num_input hidden1_size num_classes : nat)
  : Prop :=
  Linear_shape (hidden1 m) num_input hidden1_size /\
  Linear_shape (output m) hidden1_size num_classes.

(** The gradients of one backward pass, one tensor per parameter. *)
Record Gradients : Type := mkGradients
  { d_hidden1_weight : matrix;
    d_hidden1_bias : vec;
    d_output_weight : matrix;
    d_output_bias : vec }.

Definition Gradients_shape (g : Gradients)
  (num_input hidden1_size num_classes : nat) : Prop :=
  has_shape (d_hidden1_weight g) hidden1_size num_input /\
  length (d_hidden1_bias g) = hidden1_size /\
  has_shape (d_output_weight g) num_classes hidden1_size /\
  length (d_output_bias g) = num_classes.

(** Every [p.grad] of the model is set, to the tensors of [g]. *)
Definition has_grads (m : MLP) (g : Gradients) : Prop :=
  grad (weight (hidden1 m)) = Some (d_hidden1_weight g) /\
  grad (bias (hidden1 m)) = Some (d_hidden1_bias g) /\
  grad (weight (output m)) = Some (d_output_weight g) /\
  grad (bias (output m)) = Some (d_output_bias g).

(** ** The optimizer *)

Record Buffers : Type := mkBuffers
  { buf_hidden1_weight : option matrix;
    buf_hidden1_bias : option vec;
    buf_output_weight : option matrix;
    buf_output_bias : option vec }.

Record SGD : Type := mkSGD
  { lr : R;
    momentum : R;
    state : Buffers }.

(** A momentum buffer, once allocated, has the shape of its parameter. *)
Definition buffer_shape (b : option matrix) (rows cols : nat) : Prop :=
  match b with
  | None => True
  | Some v => has_shape v rows cols
  end.

Definition buffer_length (b : option vec) (n : nat) : Prop :=
  match b with
  | None => True
  | Some v => length v = n
  end.

Definition Buffers_shape (b : Buffers)
  (num_input hidden1_size num_classes : nat) : Prop :=
  buffer_shape (buf_hidden1_weight b) hidden1_size num_input /\
  buffer_length (buf_hidden1_bias b) hidden1_size /\
  buffer_shape (buf_output_weight b) num_classes hidden1_size /\
  buffer_length (buf_output_bias b) num_classes.

Definition alpha : R := 0.008.
Definition gamma : R := 0.5.

(** [optim.SGD(MLP_model.parameters(), lr=alpha, momentum=gamma)] *)
Definition MLP_optimizer : SGD :=
  mkSGD alpha gamma (mkBuffers None None None None).

(** ** The objects the loops mutate *)

Inductive call : Type :=
| ZeroGrad
| Forward
| Loss
| Backward
| Step.

(** The model and the optimizer share the parameter tensors; [calls] records
    the calls made into the model, the loss and the optimizer, oldest
    first. *)
Record world : Type := mkWorld
  { ANN_model : MLP;
    optimizer : SGD;
    calls : list call }.

Definition M (A : Type) : Type := world -> world * result A.

Definition ret {A : Type} (a : A) : M A := fun w => (w, Ok a).

Definition bind {A B : Type} (c : M A) (k : A -> M B) : M B :=
  fun w =>
    match c w with
    | (w', Ok a) => k a w'
    | (w', Raise e) => (w', Raise e)
    end.

Definition lift {A : Type} (r : result A) : M A := fun w => (w, r).

Definition record (c : call) : M unit :=
  fun w => (mkWorld (ANN_model w) (optimizer w) (calls w ++ [c]), Ok tt).

Definition set_model (f : MLP -> MLP) : M unit :=
  fun w => (mkWorld (f (ANN_model w)) (optimizer w) (calls w), Ok tt).

Declare Scope monad_scope.
Delimit Scope monad_scope with monad.
Notation "x <- c1 ;; c2" := (bind c1 (fun x => c2))
  (at level 61, c1 at next level, right associativity) : monad_scope.
Notation "c1 ;; c2" := (bind c1 (fun _ => c2))
  (at level 61, right associativity) : monad_scope.
Open Scope monad_scope.

Definition map_params (fm : Param matrix -> Param matrix)
  (fv : Param vec -> Param vec) (m : MLP) : MLP :=
  mkMLP
    (mkLinear (in_features (hidden1 m)) (out_features (hidden1 m))
       (fm (weight (hidden1 m))) (fv (bias (hidden1 m))))
    (mkLinear (in_features (output m)) (out_features (output m))
       (fm (weight (output m))) (fv (bias (output m))))
    (training m).

(** [ANN_model.train()] and [ANN_model.eval()] *)
Definition set_training (mode : bool) (m : MLP) : MLP :=
  mkMLP (hidden1 m) (output m) mode.

(** [optimizer.zero_grad()]: every [p.grad] becomes [None]. *)
Definition clear_grad {T : Type} (p : Param T) : Param T :=
  mkParam (data p) None.

Definition zero_grad : M unit :=
  record ZeroGrad ;;
  set_model (map_params clear_grad clear_grad).

(** [ANN_model(features)] *)
Definition call_model (features : matrix) : M matrix :=
  record Forward ;;
  fun w => (w, forward (ANN_model w) features).

(** Accumulation of a fresh gradient into [p.grad]. *)
Definition accumulate {T : Type} `{Elementwise T} (p : Param T) (g : T)
  : Param T :=
  mkParam (data p)
    (Some match grad p with
          | None => g
          | Some a => map2 Rplus a g
          end).

Definition accumulate_all (g : Gradients) (m : MLP) : MLP :=
  mkMLP
    (mkLinear (in_features (hidden1 m)) (out_features (hidden1 m))
       (accumulate (weight (hidden1 m)) (d_hidden1_weight g))
       (accumulate (bias (hidden1 m)) (d_hidden1_bias g)))
    (mkLinear (in_features (output m)) (out_features (output m))
       (accumulate (weight (output m)) (d_output_weight g))
       (accumulate (bias (output m)) (d_output_bias g)))
    (training m).

(** [optimizer.step()]: [sgd_param] on each of [hidden1.weight],
    [hidden1.bias], [output.weight], [output.bias]. *)
Definition sgd_step (m : MLP) (o : SGD) : MLP * SGD :=
  let b := state o in
  let (w1, bw1) :=
    sgd_param (lr o) (momentum o) (weight (hidden1 m)) (buf_hidden1_weight b) in
  let (b1, bb1) :=
    sgd_param (lr o) (momentum o) (bias (hidden1 m)) (buf_hidden1_bias b) in
  let (w2, bw2) :=
    sgd_param (lr o) (momentum o) (weight (output m)) (buf_output_weight b) in
  let (b2, bb2) :=
    sgd_param (lr o) (momentum o) (bias (output m)) (buf_output_bias b) in
  (mkMLP
     (mkLinear (in_features (hidden1 m)) (out_features (hidden1 m)) w1 b1)
     (mkLinear (in_features (output m)) (out_features (output m)) w2 b2)
     (training m),
   mkSGD (lr o) (momentum o) (mkBuffers bw1 bb1 bw2 bb2)).

Definition step : M unit :=
  record Step ;;
  fun w =>
    let (m, o) := sgd_step (ANN_model w) (optimizer w) in
    (mkWorld m o (calls w), Ok tt).

(** A mini-batch as the loader yields it: [(features, labels)]. *)
Definition batch : Type := (matrix * list nat)%type.

(** ** The training loop *)

Section Training.

(** [loss_func] is the loss module handed to the loop. [autograd m features
    labels] stands for the automatic-differentiation engine: the gradients
    of [loss_func (forward m features) labels] with respect to the four
    parameter tensors of [m]. *)
Variable loss_func : matrix -> list nat -> result R.
Variable autograd : MLP -> matrix -> list nat -> Gradients.

Definition call_loss (output : matrix) (labels : list nat) : M R :=
  record Loss ;;
  lift (loss_func output labels).

(** [loss.backward()] *)
Definition backward (features : matrix) (labels : list nat) : M unit :=
  record Backward ;;
  set_model (fun m => accumulate_all (autograd m features labels) m).

(** The body of the inner [for]: one batch. *)
Definition train_batch (b : batch) (train_losses : list R) : M (list R) :=
  let (features, labels) := b in
  zero_grad ;;
  output <- call_model features ;;
  loss <- call_loss output labels ;;
  let train_losses := train_losses ++ [loss] in
  backward features labels ;;
  step ;;
  ret train_losses.

(** The inner [for] over the batches of one traversal of the loader. *)
Fixpoint train_epoch (batches : list batch) (train_losses : list R)
  : M (list R) :=
  match batches with
  | [] => ret train_losses
  | b :: rest =>
      train_losses <- train_batch b train_losses ;;
      train_epoch rest train_losses
  end.

(** [training_data epoch_cnt] is the list of batches the loader yields on
    its traversal number [epoch_cnt] (a reshuffled partition each time). *)
Fixpoint train_epochs (training_data : nat -> list batch) (remaining : nat)
  (epoch_cnt : nat) (train_losses : list R) : M (list R) :=
  match remaining with
  | O => ret train_losses
  | S remaining' =>
      train_losses <- train_epoch (training_data epoch_cnt) train_losses ;;
      train_epochs training_data remaining' (S epoch_cnt) train_losses
  end.

(** [train_ANN_model]; [range(num_epochs)] is empty for a negative
    [num_epochs]. The device arguments only move tensors and the returned
    [training_time] is a clock difference: both are left out. *)
Definition train_ANN_model (num_epochs : Z) (training_data : nat -> list batch)
  : M (list R) :=
  set_model (set_training true) ;;
  train_epochs training_data (Z.to_nat num_epochs) 0 [].

(** The loss of batch [b] on the model as it stands in [w], and the objects
    as one iteration on [b] leaves them. *)
Definition batch_loss (w : world) (b : batch) : result R :=
  let? output := forward (ANN_model w) (fst b) in
  loss_func output (snd b).

Definition after_batch (w : world) (b : batch) : world :=
  fst (train_batch b [] w).

(** The losses of a sequence of batches processed one after the other from
    [w], in that order. *)
Fixpoint loss_history (w : world) (batches : list batch)
  : list (result R) :=
  match batches with
  | [] => []
  | b :: rest => batch_loss w b :: loss_history (after_batch w b) rest
  end.

End Training.

(** ** The evaluation loop *)

(** Python's [num_correct / num_samples] on integers. *)
Definition py_div (a b : nat) : result Q :=
  match b with
  | O => Raise ZeroDivisionError
  | S b' => Ok (Z.of_nat a # Pos.of_succ_nat b')%Q
  end.

(** The body of the [for] of [test_ANN_model]; [num_samples] is [None]
    while the local variable is unbound. *)
Fixpoint test_loop (batches : list batch)
  (predicted_labels true_labels : list nat) (num_samples : option nat)
  : M (list nat * list nat * option nat) :=
  match batches with
  | [] => ret (predicted_labels, true_labels, num_samples)
  | (features, labels) :: rest =>
      output <- call_model features ;;
      predictions <- lift (argmax_rows output) ;;
      let predicted_labels := predicted_labels ++ predictions in
      let num_samples := length labels in
      let true_labels := true_labels ++ labels in
      num_correct <- lift (eq_sum predictions labels) ;;
      accuracy <- lift (py_div num_correct num_samples) ;;
      test_loop rest predicted_labels true_labels (Some num_samples)
  end.

Definition test_ANN_model (testing_data : list batch)
  : M (list nat * list nat) :=
  set_model (set_training false) ;;
  r <- test_loop testing_data [] [] None ;;
  let '(predicted_labels, true_labels, num_samples) := r in
  match num_samples with
  | None => lift (Raise UnboundLocalError)
  | Some _ => ret (predicted_labels, true_labels)
  end.

(** The parameter tensors of the model, in [parameters()] order. *)
Definition parameters (m : MLP) : matrix * vec * matrix * vec :=
  (data (weight (hidden1 m)), data (bias (hidden1 m)),
   data (weight (output m)), data (bias (output m))).

(** ** The formulas of the specification *)

Module Spec.

Local Open Scope R_scope.

(** The transpose of a matrix with [cols] columns. *)
Fixpoint transpose (cols : nat) (m : matrix) : matrix :=
  match m with
  | [] => repeat [] cols
  | row :: m' => zipWith cons row (transpose cols m')
  end.

(** [x @ W] for a row [x] and a matrix [W] with [cols] columns. *)
Fixpoint vecmat (cols : nat) (x : vec) (W : matrix) : vec :=
  match x, W with
  | xk :: x', Wk :: W' =>
      zipWith Rplus (map (Rmult xk) Wk) (vecmat cols x' W')
  | _, _ => repeat 0 cols
  end.

Definition matmul (cols : nat) (X W : matrix) : matrix :=
  map (fun x => vecmat cols x W) X.

Definition add_bias (X : matrix) (b : vec) : matrix :=
  map (fun row => zipWith Rplus row b) X.

(** Element-wise [max(0, v)]. *)
Definition ReLU (X : matrix) : matrix := map (map (fun v => Rmax 0 v)) X.

(** [h = ReLU(x @ W1 + b1)]; [out = h @ W2 + b2], with [W1] of shape
    [input_dim, hidden_dim] and [W2] of shape [hidden_dim, num_classes]. *)
Definition forward (W1 : matrix) (b1 : vec) (W2 : matrix) (b2 : vec)
  (X : matrix) : matrix :=
  let h := ReLU (add_bias (matmul (length b1) X W1) b1) in
  add_bias (matmul (length b2) h W2) b2.

(** The normalized exponential of a score vector, at class [j]. *)
Definition softmax (scores : vec) (j : nat) : R :=
  exp (nth j scores 0) / sum (map exp scores).

(** [w[label] * (-log(softmax(scores)[label]))] *)
Definition sample_loss (w : vec) (scores : vec) (label : nat) : R :=
  nth label w 0 * - ln (softmax scores label).

Definition sample_losses (w : vec) (scores : matrix) (labels : list nat)
  : vec :=
  map (fun p => sample_loss w (fst p) (snd p)) (combine scores labels).

Definition mean (x : vec) : R := sum x / INR (length x).

(** The loss as the arithmetic mean of the weighted sample losses. *)
Definition mean_loss (w : vec) (scores : matrix) (labels : list nat) : R :=
  mean (sample_losses w scores labels).

(** The loss as the sum of the weighted sample losses over the sum of the
    weights of the labels. *)
Definition weighted_mean_loss (w : vec) (scores : matrix)
  (labels : list nat) : R :=
  sum (sample_losses w scores labels)
  / sum (map (fun label => nth label w 0) labels).

(** The velocity of an entry before a step: zero until the first step. *)
Definition velocity (v : option vec) (i : nat) : R :=
  match v with
  | None => 0
  | Some v => nth i v 0
  end.

(** [v <- gamma*v + g] then [theta <- theta - alpha*v] at every entry of a
    rank-1 tensor: [theta'] and [v'] are the tensors after the step. *)
Definition momentum_update (alpha gamma : R) (theta : vec) (v : option vec)
  (g theta' v' : vec) : Prop :=
  length theta' = length theta /\ length v' = length theta /\
  forall i : nat, (i < length theta)%nat ->
    nth i v' 0 = gamma * velocity v i + nth i g 0 /\
    nth i theta' 0 = nth i theta 0 - alpha * nth i v' 0.

Definition row (v : option matrix) (i : nat) : option vec :=
  option_map (fun v => nth i v []) v.

(** The same, row by row, on a rank-2 tensor. *)
Definition momentum_update_matrix (alpha gamma : R) (theta : matrix)
  (v : option matrix) (g theta' v' : matrix) : Prop :=
  length theta' = length theta /\ length v' = length theta /\
  forall i : nat, (i < length theta)%nat ->
    momentum_update alpha gamma (nth i theta []) (row v i) (nth i g [])
      (nth i theta' []) (nth i v' []).

(** [theta - alpha*g], entry by entry. *)
Definition descend (alpha : R) (theta g : vec) : vec :=
  zipWith (fun t d => t - alpha * d) theta g.

Definition descend_matrix (alpha : R) (theta g : matrix) : matrix :=
  zipWith (descend alpha) theta g.

End Spec.

(** ** Properties of computations *)

(** A computation that leaves the model and the optimizer as they are. *)
Definition keeps_objects {A : Type} (c : M A) : Prop :=
  forall w : world,
    ANN_model (fst (c w)) = ANN_model w /\
    optimizer (fst (c w)) = optimizer w.

(** What the loops maintain: the parameters and the allocated momentum
    buffers have the shapes of [MLP(num_input, hidden1_size, num_classes)]. *)
Definition well_shaped (num_input hidden1_size num_classes : nat) (w : world)
  : Prop :=
  MLP_shape (ANN_model w) num_input hidden1_size num_classes /\
  Buffers_shape (state (optimizer w)) num_input hidden1_size num_classes.

(** The objects once [ANN_model.train()] has run. *)
Definition started (w : world) : world :=
  mkWorld (set_training true (ANN_model w)) (optimizer w) (calls w).

(** The batches in processing order: traversal 0, then traversal 1, ... *)
Definition processed (training_data : nat -> list batch) (num_epochs : Z)
  : list batch :=
  concat (map training_data (seq 0 (Z.to_nat num_epochs))).

(** The calls of one iteration. *)
Definition iteration_calls : list call :=
  [ZeroGrad; Forward; Loss; Backward; Step].

(** A batch the model and the loss accept: rows of [num_input] features and
    as many labels, all of them class indices. *)
Definition batch_ok (num_input num_classes : nat) (b : batch) : Prop :=
  Forall (fun row => length row = num_input) (fst b) /\
  length (snd b) = length (fst b) /\
  Forall (fun label => label < num_classes) (snd b).

(** ** Concrete objects used in the examples below *)

Module Examples.

Local Open Scope R_scope.

(** [MLP(3, 2, 2)] with some parameter values and no gradients yet. *)
Definition model : MLP :=
  mkMLP
    (mkLinear 3 2 (mkParam [[1; 0; -1]; [0; 1; 0]] None) (mkParam [0; 1] None))
    (mkLinear 2 2 (mkParam [[1; 1]; [0; -1]] None) (mkParam [0; 0] None))
    true.

Definition X : list (list R) := [[1; 2; 3]].

(** Gradients of the shapes of [model], and [model] after a backward pass
    that produced them. *)
Definition gradients : Gradients :=
  mkGradients [[1; 1; 1]; [0; 0; 2]] [1; 0] [[0; 1]; [1; 0]] [1; -1].

Definition model_after_backward : MLP := accumulate_all gradients model.

(** The class weights of the training labels [0,0,0,1], one sample of
    class 1 and its two equal scores. *)
Definition class_weights : list R := [2 / 3; 2].
Definition scores : list (list R) := [[0; 0]].
Definition labels : list nat := [1%nat].

(** A run of two epochs over a loader of one batch: the model and a fresh
    optimizer, the weighted loss, and an engine that answers [gradients]. *)
Definition start : world := mkWorld model MLP_optimizer [].
Definition loss_func : list (list R) -> list nat -> result R :=
  CrossEntropyLoss class_weights.
Definition engine (m : MLP) (features : list (list R)) (y : list nat)
  : Gradients := gradients.
Definition loader (epoch_cnt : nat) : list batch := [(X, labels)].

End Examples.

(** ** More objects of the statements *)

(** A batch the evaluation loop accepts: rows of [num_input] features, as
    many labels, at least one sample. *)
Definition test_batch_ok (num_input : nat) (b : batch) : Prop :=
  Forall (fun row => length row = num_input) (fst b) /\
  length (snd b) = length (fst b) /\
  fst b <> [].

(** All the features, and all the labels, of a sequence of batches. *)
Definition all_features (batches : list batch) : list (list R) :=
  concat (map fst batches).

Definition all_labels (batches : list batch) : list nat :=
  concat (map snd batches).

(** [i] is the index [torch.max] reports for [row]: a maximal entry, and
    the first one. *)
Definition first_max (row : list R) (i : nat) : Prop :=
  i < length row /\
  (forall j, j < length row -> (nth j row 0 <= nth i row 0)%R) /\
  (forall j, j < i -> (nth j row 0 < nth i row 0)%R).

(** The value of [num_samples] after the loop has gone through [batches]. *)
Definition last_num_samples (batches : list batch) (num_samples : option nat)
  : option nat :=
  fold_left (fun _ b => Some (length (snd b))) batches num_samples.

(** ** The report: accuracy, confusion matrix and its printing *)

From Stdlib Require String DecimalString.
Import String.StringSyntax.
Delimit Scope string_scope with string.

Module Metrics.

(** [unique_labels(y_true, y_pred)]: the distinct labels that occur, in
    increasing order. *)
Definition unique_labels (y_true y_pred : list nat) : list nat :=
  let present := y_true ++ y_pred in
  filter (fun c => existsb (Nat.eqb c) present)
    (seq 0 (S (list_max present))).

(** [accuracy_score(y_true, y_pred)]: the mean of the element-wise
    equality, a [nan] on no sample. *)
Definition accuracy_score (y_true y_pred : list nat)
  : result Numpy.float64 :=
  if negb (length y_true =? length y_pred) then Raise ValueError
  else
    Ok (Numpy.true_divide (Z.of_nat (count_eq y_true y_pred))
          (Z.of_nat (length y_true))).

(** [confusion_matrix(y_true, y_pred)]: one row and one column per label
    that occurs; entry [i, j] counts the samples of true label [labels[i]]
    predicted as [labels[j]]. *)
Definition confusion_matrix (y_true y_pred : list nat)
  : result (list (list Z)) :=
  if negb (length y_true =? length y_pred) then Raise ValueError
  else
    let labels := unique_labels y_true y_pred in
    Ok (map (fun t =>
               map (fun p =>
                      Z.of_nat
                        (Sklearn.count_pairs
                           (fun a b => (a =? t) && (b =? p)) y_true y_pred))
                 labels)
          labels).

End Metrics.

(** [cm[i, j]] on a two-dimensional array. *)
Definition getitem2 (cm : list (list Z)) (i j : nat) : result Z :=
  let? row := getitem cm i in
  getitem row j.

(** [f"{v:<5}"]: the decimal digits of [v], padded with spaces on the right
    to five characters. *)
Definition ljust (width : nat) (s : String.string) : String.string :=
  String.append s
    (String.string_of_list_ascii
       (repeat (Ascii.ascii_of_nat 32) (width - String.length s))).

Definition format_left5 (v : Z) : String.string :=
  ljust 5 (DecimalString.NilZero.string_of_int (Z.to_int v)).

(** [print_confusion_matrix]: the lines printed, oldest first, and how the
    call ended. The entries of a line are read before the line is printed. *)
Definition print_confusion_matrix (cm : list (list Z))
  : list String.string * result unit :=
  let header :=
    ["Confusion Matrix:"%string;
     "                Predicted"%string;
     "                 0      1"%string] in
  match getitem2 cm 0 0, getitem2 cm 0 1 with
  | Ok tn, Ok fp =>
      let line0 :=
        String.concat ""%string
          ["Actual 0     TN: "%string; format_left5 tn;
           " FP: "%string; format_left5 fp] in
      match getitem2 cm 1 0, getitem2 cm 1 1 with
      | Ok fn, Ok tp =>
          let line1 :=
            String.concat ""%string
              ["       1     FN: "%string; format_left5 fn;
               " TP: "%string; format_left5 tp] in
          (header ++ [line0; line1], Ok tt)
      | Raise e, _ => (header ++ [line0], Raise e)
      | _, Raise e => (header ++ [line0], Raise e)
      end
  | Raise e, _ => (header, Raise e)
  | _, Raise e => (header, Raise e)
  end.

(** ** The data loaders *)

Definition mini_batch_size : nat := 64.

(** One item of a [TensorDataset]: a row of features and its label. *)
Abbreviation sample := (list R * nat)%type (only parsing).

(** The batch sampler: consecutive groups of [batch_size] indices, the last
    one shorter when the indices run out ([drop_last=False]). *)
Fixpoint chunks {A : Type} (fuel batch_size : nat) (l : list A)
  : list (list A) :=
  match fuel, l with
  | S fuel', _ :: _ =>
      firstn batch_size l :: chunks fuel' batch_size (skipn batch_size l)
  | _, _ => []
  end.

(** [[dataset[i] for i in indices]]; the samplers only yield indices of the
    dataset. *)
Definition fetch (dataset : list sample) (indices : list nat) : list sample :=
  flat_map (fun i => match nth_error dataset i with
                     | Some s => [s]
                     | None => []
                     end) indices.

(** The default collation: the features stacked into a matrix, the labels
    into a vector. *)
Definition collate (samples : list sample) : batch :=
  (map fst samples, map snd samples).

(** One traversal of [DataLoader(dataset, batch_size)] whose sampler yields
    the indices [order]. *)
Definition DataLoader (dataset : list sample) (batch_size : nat)
  (order : list nat) : list batch :=
  map (fun indices => collate (fetch dataset indices))
    (chunks (length order) batch_size order).

(** [shuffle=False]: the indices in order. *)
Definition test_dataloader (test_dataset : list sample) : list batch :=
  DataLoader test_dataset mini_batch_size (seq 0 (length test_dataset)).

(** [shuffle=True]: constructing the loader builds the random sampler,
    which refuses a dataset with no sample ([ValueError]). On a dataset
    with samples the loader is made, and its traversal number [epoch_cnt]
    batches the permutation [randperm epoch_cnt] of the indices that the
    sampler draws for it. *)
Definition train_dataloader (train_dataset : list sample)
  (randperm : nat -> list nat) : result (nat -> list batch) :=
  match train_dataset with
  | [] => Raise ValueError
  | _ :: _ =>
      Ok (fun epoch_cnt =>
            DataLoader train_dataset mini_batch_size (randperm epoch_cnt))
  end.

(** [len(dataloader)], the value of [num_train_batches] and
    [num_test_batches]. *)
Definition num_batches (dataset : list sample) : nat :=
  (length dataset + mini_batch_size - 1) / mini_batch_size.
(** ** Facts about [bincount] *)

Lemma incr_length (counts : list Z) (i : nat) :
  length (Numpy.incr counts i) = length counts.
Proof.
  revert i; induction counts as [|c cs IH]; intros [|j]; simpl; auto.
Qed.

Lemma incr_nth_same (counts : list Z) (i : nat) :
  i < length counts ->
  nth i (Numpy.incr counts i) 0%Z = (nth i counts 0 + 1)%Z.
Proof.
  revert i; induction counts as [|c cs IH]; intros [|j] H; simpl in *;
    try lia; auto.
  apply IH; lia.
Qed.

Lemma incr_nth_other (counts : list Z) (i j : nat) :
  i <> j -> nth j (Numpy.incr counts i) 0%Z = nth j counts 0%Z.
Proof.
  revert i j; induction counts as [|c cs IH]; intros [|i] [|j] H; simpl;
    auto; try congruence.
Qed.

Lemma fold_incr_length (x : list nat) (counts : list Z) :
  length (fold_left Numpy.incr x counts) = length counts.
Proof.
  revert counts; induction x as [|a x IH]; intros counts; simpl; auto.
  rewrite IH; apply incr_length.
Qed.

Lemma fold_incr_nth (x : list nat) (counts : list Z) (c : nat) :
  Forall (fun a => a < length counts) x ->
  nth c (fold_left Numpy.incr x counts) 0%Z = (nth c counts 0 + count x c)%Z.
Proof.
  unfold count.
  revert counts; induction x as [|a x IH]; intros counts H; simpl.
  - lia.
  - inversion H as [|? ? Ha Hx]; subst.
    rewrite IH by (rewrite incr_length; exact Hx).
    destruct (Nat.eq_dec a c) as [->|Hne].
    + rewrite incr_nth_same by exact Ha. lia.
    + rewrite incr_nth_other by exact Hne. lia.
Qed.

Lemma list_max_bound (x : list nat) :
  Forall (fun a => a < S (list_max x)) x.
Proof.
  apply Forall_forall; intros a Ha.
  pose proof (proj1 (list_max_le x (list_max x)) (Nat.le_refl _)) as H.
  rewrite Forall_forall in H. specialize (H a Ha). lia.
Qed.

Lemma bincount_length (x : list nat) :
  x <> [] -> length (Numpy.bincount x) = S (list_max x).
Proof.
  destruct x as [|a x]; [congruence|intros _].
  unfold Numpy.bincount. rewrite fold_incr_length, repeat_length. reflexivity.
Qed.

Lemma nth_repeat_0 (n c : nat) : nth c (repeat 0%Z n) 0%Z = 0%Z.
Proof.
  revert c; induction n as [|n IH]; intros [|c]; simpl; auto.
Qed.

Lemma bincount_nth (x : list nat) (c : nat) :
  nth c (Numpy.bincount x) 0%Z = count x c.
Proof.
  destruct x as [|a x].
  - destruct c; reflexivity.
  - unfold Numpy.bincount.
    rewrite fold_incr_nth by (rewrite repeat_length; apply list_max_bound).
    rewrite nth_repeat_0. lia.
Qed.

Lemma getitem_bincount (x : list nat) (c : nat) :
  c <= list_max x -> x <> [] ->
  getitem (Numpy.bincount x) c = Ok (count x c).
Proof.
  intros Hc Hx. unfold getitem.
  assert (Hlen : c < length (Numpy.bincount x))
    by (rewrite bincount_length by exact Hx; lia).
  rewrite (nth_error_nth' _ 0%Z Hlen), bincount_nth. reflexivity.
Qed.

Lemma getitem_bincount_out (x : list nat) (c : nat) :
  list_max x < c -> getitem (Numpy.bincount x) c = Raise IndexError.
Proof.
  intros Hc. unfold getitem.
  assert (Hlen : length (Numpy.bincount x) <= c).
  { destruct x as [|a x]; [simpl; lia|].
    rewrite bincount_length by discriminate. lia. }
  apply nth_error_None in Hlen. rewrite Hlen. reflexivity.
Qed.

Lemma list_max_ge_In (x : list nat) (a : nat) : In a x -> a <= list_max x.
Proof.
  intros Ha.
  pose proof (proj1 (list_max_le x (list_max x)) (Nat.le_refl _)) as H.
  rewrite Forall_forall in H. exact (H a Ha).
Qed.

Lemma count_pos_In (x : list nat) (c : nat) : (0 < count x c)%Z -> In c x.
Proof.
  unfold count. intros H.
  apply (count_occ_In Nat.eq_dec). lia.
Qed.

Lemma count_zero_not_In (x : list nat) (c : nat) : count x c = 0%Z -> ~ In c x.
Proof.
  unfold count. intros H.
  apply (count_occ_not_In Nat.eq_dec). lia.
Qed.

(** ** Class weights *)

Lemma w0_eq (y_train : list nat) :
  y_train <> [] ->
  w0 y_train =
  Ok (Numpy.true_divide (total_samples y_train) (2 * count y_train 0)).
Proof.
  intros Hne. unfold w0, class_counts.
  rewrite getitem_bincount by (auto; lia). reflexivity.
Qed.

Lemma w1_eq (y_train : list nat) :
  1 <= list_max y_train ->
  w1 y_train =
  Ok (Numpy.true_divide (total_samples y_train) (2 * count y_train 1)).
Proof.
  intros Hmax. unfold w1, class_counts.
  rewrite getitem_bincount; [reflexivity|exact Hmax|].
  intros ->. simpl in Hmax. lia.
Qed.

Lemma true_divide_pos (a b : Z) :
  (0 < b)%Z -> Numpy.true_divide a b = Numpy.Finite (a # Z.to_pos b).
Proof.
  destruct b; simpl; try lia. reflexivity.
Qed.

Lemma count_In_pos (x : list nat) (c : nat) : In c x -> (0 < count x c)%Z.
Proof.
  unfold count. intros H.
  apply (count_occ_In Nat.eq_dec) in H. lia.
Qed.

Lemma binary_count_total (y : list nat) :
  Forall (fun l => l <= 1) y ->
  (count y 0 + count y 1 = total_samples y)%Z.
Proof.
  unfold count, total_samples.
  induction 1 as [|a y Ha _ IH]; simpl; [reflexivity|].
  destruct (Nat.eq_dec a 0), (Nat.eq_dec a 1); lia.
Qed.

(** C4. With both classes present in the training labels, the weights are
    [w[c] = N_total / (2 * count(label == c))], with [N_total] the number
    of training labels and [count(label == c)] the number of occurrences of
    [c] among them: a function of the labels alone. On the labels [0,0,0,1]
    this gives [w0 = 4/6], within [0.001] of [0.667], and [w1 = 4/2 = 2]. *)
Theorem class_weights_formula :
  (forall y_train : list nat,
      In 0 y_train -> In 1 y_train ->
      weights y_train =
      Ok (Numpy.Finite
            (Z.of_nat (length y_train)
             # Z.to_pos (2 * Z.of_nat (count_occ Nat.eq_dec y_train 0))),
          Numpy.Finite
            (Z.of_nat (length y_train)
             # Z.to_pos (2 * Z.of_nat (count_occ Nat.eq_dec y_train 1)))))
  /\ weights [0; 0; 0; 1] = Ok (Numpy.Finite (4 # 6), Numpy.Finite (4 # 2))
  /\ (4 # 6 == 2 # 3)%Q
  /\ (Qabs ((4 # 6) - (667 # 1000)) < 1 # 1000)%Q
  /\ (4 # 2 == 2 # 1)%Q.
Proof.
  split; [|repeat split; vm_compute; reflexivity].
  intros y H0 H1.
  pose proof (count_In_pos _ _ H0) as P0.
  pose proof (count_In_pos _ _ H1) as P1.
  unfold weights.
  rewrite w0_eq by (intros ->; contradiction).
  rewrite w1_eq by (apply (list_max_ge_In _ _ H1)).
  cbn [rbind]. rewrite !true_divide_pos by lia. reflexivity.
Qed.

Lemma class_weights_formula_witness :
  In 0 [0; 0; 0; 1] /\ In 1 [0; 0; 0; 1] /\
  weights [0; 0; 0; 1] = Ok (Numpy.Finite (4 # 6), Numpy.Finite (4 # 2)).
Proof.
  split; [simpl; auto|]. split; [simpl; auto|].
  apply (proj1 class_weights_formula [0; 0; 0; 1]); simpl; auto.
Defined.

(** C8, as the code has it. For labels in {0,1}: when class 1 is absent the
    computation raises [IndexError]; when class 0 is absent and class 1 is
    present nothing is raised, [w0] is [+inf] and [w1] is [N/(2N) = 1/2]. *)
Theorem class_weights_degenerate (y_train : list nat)
  (Hbin : Forall (fun l => l <= 1) y_train) :
  (count y_train 1 = 0%Z -> weights y_train = Raise IndexError) /\
  (count y_train 0 = 0%Z -> (0 < count y_train 1)%Z ->
   weights y_train =
   Ok (Numpy.PosInf,
       Numpy.Finite
         (total_samples y_train # Z.to_pos (2 * total_samples y_train)))
   /\ (total_samples y_train # Z.to_pos (2 * total_samples y_train)
       == 1 # 2)%Q).
Proof.
  pose proof (binary_count_total Hbin) as Htot.
  split.
  - intros H1. unfold weights.
    assert (Hmax : list_max y_train < 1).
    { apply Nat.lt_succ_r. apply list_max_le.
      rewrite Forall_forall in *. intros a Ha.
      specialize (Hbin a Ha).
      destruct (Nat.eq_dec a 1) as [->|]; [|lia].
      exfalso. exact (count_zero_not_In _ _ H1 Ha). }
    destruct y_train as [|a y]; [reflexivity|].
    rewrite w0_eq by discriminate.
    unfold w1, class_counts. rewrite (getitem_bincount_out _ Hmax).
    reflexivity.
  - intros H0 H1.
    assert (Hin : In 1 y_train) by (apply count_pos_In; exact H1).
    unfold weights.
    rewrite w0_eq by (intros ->; contradiction).
    rewrite w1_eq by (apply (list_max_ge_In _ _ Hin)).
    rewrite H0. cbn [rbind].
    assert (Hn : (0 < total_samples y_train)%Z) by lia.
    replace (count y_train 1) with (total_samples y_train) by lia.
    rewrite (true_divide_pos _ (b := 2 * total_samples y_train)) by lia.
    split.
    + destruct (total_samples y_train); try lia. reflexivity.
    + unfold Qeq. cbn [Qnum Qden].
      rewrite Z2Pos.id by lia. lia.
Qed.

Lemma class_weights_degenerate_witness :
  weights [1; 1; 1] = Ok (Numpy.PosInf, Numpy.Finite (3 # 6)).
Proof.
  assert (Hbin : Forall (fun l => l <= 1) [1; 1; 1])
    by (repeat constructor).
  exact (proj1 (proj2 (class_weights_degenerate Hbin)
                  eq_refl eq_refl)).
Defined.

(** C8, as stated, fails: on the training labels [1,1,1] class 0 is absent,
    yet the computation raises nothing and yields an infinite weight. *)
Lemma class_weights_absent_class_not_fatal :
  count [1; 1; 1] 0 = 0%Z /\
  ~ raises (weights [1; 1; 1]) /\
  weights [1; 1; 1] = Ok (Numpy.PosInf, Numpy.Finite (3 # 6)).
Proof.
  split; [reflexivity|]. split.
  - vm_compute. exact (fun f => f).
  - vm_compute. reflexivity.
Qed.

(** ** The forward pass *)

Section ForwardFacts.

Local Open Scope R_scope.

Lemma zipWith_length {A B C : Type} (f : A -> B -> C) (a : list A)
  (b : list B) :
  length (zipWith f a b) = Nat.min (length a) (length b).
Proof.
  revert b; induction a as [|x a IH]; intros [|y b]; simpl; auto.
Qed.

Lemma transpose_length (cols : nat) (m : matrix) :
  Forall (fun row => length row = cols) m ->
  length (Spec.transpose cols m) = cols.
Proof.
  induction 1 as [|row m Hrow _ IH]; simpl.
  - apply repeat_length.
  - rewrite zipWith_length, IH, Hrow. apply Nat.min_id.
Qed.

Lemma transpose_rows (cols : nat) (m : matrix) :
  Forall (fun col => length col = length m) (Spec.transpose cols m).
Proof.
  induction m as [|row m IH]; simpl.
  - apply Forall_forall. intros col Hc. apply repeat_spec in Hc.
    subst; reflexivity.
  - revert IH. generalize (Spec.transpose cols m) as T.
    induction row as [|v row IHrow]; intros [|c T] HT; simpl; auto.
    inversion HT; subst. constructor; [simpl; congruence|auto].
Qed.

Lemma vecmat_nil (x : vec) (n : nat) :
  length x = n -> Spec.vecmat 0 x (repeat [] n) = [].
Proof.
  revert n; induction x as [|xk x IH]; intros [|n] H; simpl in *;
    try discriminate; reflexivity.
Qed.

Lemma vecmat_cons (c : nat) (x w : vec) (T : matrix) :
  length w = length x -> length T = length x ->
  Spec.vecmat (S c) x (zipWith cons w T) = dot x w :: Spec.vecmat c x T.
Proof.
  revert w T; induction x as [|xk x IH]; intros [|wk w] [|Tk T] Hw HT;
    simpl in *; try discriminate.
  - reflexivity.
  - rewrite IH by lia. reflexivity.
Qed.

Lemma vecmat_transpose (x : vec) (W : matrix) :
  Forall (fun row => length row = length x) W ->
  Spec.vecmat (length W) x (Spec.transpose (length x) W) = map (dot x) W.
Proof.
  induction 1 as [|w W Hw HW IH]; simpl.
  - apply vecmat_nil; reflexivity.
  - rewrite vecmat_cons; [rewrite IH; reflexivity|exact Hw|].
    apply transpose_length; exact HW.
Qed.

Lemma forallb_length (x : matrix) (n : nat) :
  Forall (fun row => length row = n) x ->
  forallb (fun row => (length row =? n)%nat) x = true.
Proof.
  induction 1; simpl; auto.
  apply andb_true_intro; split; [apply Nat.eqb_eq|]; assumption.
Qed.

Lemma linear_ok (l : Linear) (n_in n_out : nat) (x : matrix) :
  Linear_shape l n_in n_out ->
  Forall (fun row => length row = n_in) x ->
  linear l x =
  Ok (Spec.add_bias
        (Spec.matmul (length (data (bias l))) x
           (Spec.transpose n_in (data (weight l))))
        (data (bias l))).
Proof.
  intros (Hin & Hout & (HWlen & HW) & Hb) Hx.
  unfold linear. rewrite Hin, (forallb_length Hx). f_equal.
  unfold Spec.add_bias, Spec.matmul. rewrite map_map.
  apply map_ext_in. intros row Hrow.
  rewrite Forall_forall in Hx. specialize (Hx row Hrow).
  rewrite <- Hx in HW |- *.
  unfold linear_row. rewrite <- Hb in HWlen. rewrite <- HWlen.
  rewrite vecmat_transpose; [reflexivity|exact HW].
Qed.

Lemma linear_row_length (l : Linear) (n_in n_out : nat) (x : vec) :
  Linear_shape l n_in n_out -> length (linear_row l x) = n_out.
Proof.
  intros (_ & _ & (HWlen & _) & Hb).
  unfold linear_row. rewrite zipWith_length, length_map, HWlen, Hb.
  apply Nat.min_id.
Qed.

Lemma add_bias_matmul_shape (cols : nat) (x W : matrix) (b : vec)
  (n_out : nat) :
  length b = n_out ->
  (forall row, length (Spec.vecmat cols row W) = n_out) ->
  has_shape (Spec.add_bias (Spec.matmul cols x W) b) (length x) n_out.
Proof.
  intros Hb Hv. split.
  - unfold Spec.add_bias, Spec.matmul. rewrite !length_map. reflexivity.
  - unfold Spec.add_bias, Spec.matmul. rewrite map_map.
    apply Forall_forall. intros r Hr. apply in_map_iff in Hr.
    destruct Hr as (row & <- & _).
    rewrite zipWith_length, Hv, Hb. apply Nat.min_id.
Qed.

Lemma vecmat_length (cols : nat) (x : vec) (W : matrix) :
  Forall (fun row => length row = cols) W ->
  length (Spec.vecmat cols x W) = cols.
Proof.
  intros HW. revert x; induction HW as [|Wk W Hk _ IH]; intros [|xk x];
    simpl; try apply repeat_length.
  rewrite zipWith_length, length_map, Hk, IH. apply Nat.min_id.
Qed.

Lemma relu_shape (x : matrix) (n c : nat) :
  has_shape x n c -> has_shape (Spec.ReLU x) n c.
Proof.
  intros [Hn Hc]. split; unfold Spec.ReLU.
  - rewrite length_map; exact Hn.
  - apply Forall_forall. intros r Hr. apply in_map_iff in Hr.
    destruct Hr as (row & <- & Hin). rewrite length_map.
    rewrite Forall_forall in Hc. exact (Hc row Hin).
Qed.

Lemma transpose_shape (m : matrix) (rows cols : nat) :
  has_shape m rows cols -> has_shape (Spec.transpose cols m) cols rows.
Proof.
  intros [Hr Hc]. split.
  - apply transpose_length; exact Hc.
  - rewrite <- Hr. apply transpose_rows.
Qed.

End ForwardFacts.

(** C1. On a batch [X] of shape [N, input_dim] and parameters of the shapes
    the constructor builds, [forward] returns
    [out = ReLU(X @ W1 + b1) @ W2 + b2] with nothing applied to [out], where
    [W1], [W2] are the stored weights transposed to [input_dim, hidden_dim]
    and [hidden_dim, num_classes]; [out] has shape [N, num_classes]. *)
Theorem forward_computes_logits (m : MLP)
  (num_input hidden1_size num_classes N : nat) (X : matrix)
  (Hm : MLP_shape m num_input hidden1_size num_classes)
  (HX : has_shape X N num_input) :
  let W1 := Spec.transpose num_input (data (weight (hidden1 m))) in
  let b1 := data (bias (hidden1 m)) in
  let W2 := Spec.transpose hidden1_size (data (weight (output m))) in
  let b2 := data (bias (output m)) in
  has_shape W1 num_input hidden1_size /\
  has_shape W2 hidden1_size num_classes /\
  forward m X = Ok (Spec.forward W1 b1 W2 b2 X) /\
  has_shape (Spec.forward W1 b1 W2 b2 X) N num_classes.
Proof.
  intros W1 b1 W2 b2.
  destruct Hm as [H1 H2]. destruct HX as [HN HX].
  assert (HW1 : has_shape W1 num_input hidden1_size)
    by (apply transpose_shape; apply H1).
  assert (HW2 : has_shape W2 hidden1_size num_classes)
    by (apply transpose_shape; apply H2).
  assert (Hb1 : length b1 = hidden1_size) by apply H1.
  assert (Hb2 : length b2 = num_classes) by apply H2.
  assert (Hh : has_shape
                 (Spec.ReLU (Spec.add_bias (Spec.matmul (length b1) X W1) b1))
                 N hidden1_size).
  { apply relu_shape. rewrite <- HN. apply add_bias_matmul_shape; auto.
    intros row. rewrite Hb1. apply vecmat_length, HW1. }
  repeat split; try apply HW1; try apply HW2.
  - unfold forward. rewrite (linear_ok H1 HX). cbn [rbind].
    fold W1 b1. change (relu ?x) with (Spec.ReLU x).
    rewrite (linear_ok H2 (proj2 Hh)). reflexivity.
  - unfold Spec.forward. unfold Spec.add_bias, Spec.matmul.
    rewrite !length_map. exact (proj1 Hh).
  - unfold Spec.forward.
    apply add_bias_matmul_shape; auto.
    intros row. rewrite Hb2. apply vecmat_length, HW2.
Qed.

Lemma example_model_shape : MLP_shape Examples.model 3 2 2.
Proof.
  unfold MLP_shape, Linear_shape, has_shape; simpl.
  repeat split; repeat constructor.
Qed.

Lemma forward_computes_logits_witness :
  MLP_shape Examples.model 3 2 2 /\ has_shape Examples.X 1 3 /\
  has_shape
    (Spec.forward
       (Spec.transpose 3 (data (weight (hidden1 Examples.model))))
       (data (bias (hidden1 Examples.model)))
       (Spec.transpose 2 (data (weight (output Examples.model))))
       (data (bias (output Examples.model)))
       Examples.X) 1 2.
Proof.
  assert (HX : has_shape Examples.X 1 3)
    by (split; [reflexivity|repeat constructor]).
  split; [exact example_model_shape|]. split; [exact HX|].
  exact (proj2 (proj2 (proj2
    (forward_computes_logits example_model_shape HX)))).
Defined.

(** The example batch goes through the hidden layer ([-2, 3] before the
    rectifier, [0, 3] after it) and comes out as the scores [3, -3]. *)
Example forward_example :
  forward Examples.model Examples.X = Ok [[3; -3]]%R.
Proof.
  unfold forward, linear, Examples.model, Examples.X. simpl.
  unfold linear_row, dot, sum. simpl.
  replace (1 * 1 + (2 * 0 + (3 * -1 + 0)) + 0)%R with (-2)%R by lra.
  replace (1 * 0 + (2 * 1 + (3 * 0 + 0)) + 1)%R with 3%R by lra.
  rewrite (Rmax_left 0 (-2)) by lra.
  rewrite (Rmax_right 0 3) by lra.
  repeat f_equal; lra.
Qed.

(** ** The loss *)

Section LossFacts.

Local Open Scope R_scope.

Lemma sum_exp_shift (m : R) (x : list R) :
  sum (map (fun v => exp (v - m)) x) = exp (- m) * sum (map exp x).
Proof.
  induction x as [|v x IH]; simpl.
  - unfold sum; simpl. lra.
  - unfold sum in *; simpl. rewrite IH.
    unfold Rminus. rewrite exp_plus. lra.
Qed.

Lemma sum_exp_pos (x : list R) : x <> [] -> 0 < sum (map exp x).
Proof.
  destruct x as [|v x]; [congruence|intros _].
  unfold sum; simpl.
  assert (H : 0 <= fold_right Rplus 0 (map exp x)).
  { induction x as [|a x IH]; simpl; [lra|].
    pose proof (exp_pos a). lra. }
  pose proof (exp_pos v). lra.
Qed.

Lemma ln_softmax (x : list R) (m : R) (j : nat) :
  x <> [] ->
  nth j x 0 - m - ln (sum (map (fun v => exp (v - m)) x))
  = ln (Spec.softmax x j).
Proof.
  intros Hx. pose proof (sum_exp_pos Hx) as HS.
  rewrite sum_exp_shift. unfold Spec.softmax, Rdiv.
  rewrite !ln_mult; try apply exp_pos; try assumption.
  - rewrite !ln_exp, ln_Rinv by assumption. lra.
  - apply Rinv_0_lt_compat; assumption.
Qed.

Lemma log_softmax_length (x : list R) : length (log_softmax x) = length x.
Proof. unfold log_softmax. apply length_map. Qed.

Lemma log_softmax_nth_error (x : list R) (j : nat) :
  (j < length x)%nat ->
  nth_error (log_softmax x) j = Some (ln (Spec.softmax x j)).
Proof.
  intros Hj. unfold log_softmax.
  rewrite nth_error_map, (nth_error_nth' _ 0 Hj). simpl.
  rewrite ln_softmax; [reflexivity|].
  intros ->. simpl in Hj. lia.
Qed.

Lemma nll_sample_log_softmax (w x : list R) (t : nat) :
  length x = length w -> (t < length w)%nat ->
  nll_sample w (log_softmax x) t
  = Ok (Spec.sample_loss w x t, nth t w 0).
Proof.
  intros Hlen Ht. unfold nll_sample.
  rewrite log_softmax_length, Hlen, Nat.eqb_refl. simpl.
  rewrite log_softmax_nth_error by lia.
  rewrite (nth_error_nth' _ 0 Ht).
  unfold Spec.sample_loss. do 2 f_equal. lra.
Qed.

Lemma nll_sums_log_softmax (w : list R) (scores : list (list R))
  (labels : list nat) :
  Forall (fun row => length row = length w) scores ->
  Forall (fun label => (label < length w)%nat) labels ->
  nll_sums w (combine (map log_softmax scores) labels)
  = Ok (sum (Spec.sample_losses w scores labels),
        sum (map (fun label => nth label w 0) (firstn (length scores) labels))).
Proof.
  intros Hs. revert labels.
  induction Hs as [|row scores Hrow _ IH]; intros labels Hl.
  - reflexivity.
  - destruct labels as [|t labels]; [reflexivity|].
    inversion Hl as [|? ? Ht Hl']; subst.
    cbn [map combine nll_sums].
    rewrite nll_sample_log_softmax by assumption. cbn [rbind].
    rewrite IH by assumption. reflexivity.
Qed.

(** The loss in closed form, whenever the shapes agree and the labels are
    class indices. *)
Lemma CrossEntropyLoss_closed_form (w : list R) (scores : list (list R))
  (labels : list nat) :
  Forall (fun row => length row = length w) scores ->
  length labels = length scores ->
  Forall (fun label => (label < length w)%nat) labels ->
  CrossEntropyLoss w scores labels
  = Ok (Spec.weighted_mean_loss w scores labels).
Proof.
  intros Hs Hlen Hl. unfold CrossEntropyLoss, nll_loss.
  rewrite length_map, Hlen, Nat.eqb_refl. cbn [negb].
  rewrite nll_sums_log_softmax by assumption. cbn [rbind].
  rewrite <- Hlen, firstn_all. reflexivity.
Qed.

End LossFacts.

(** C2, as the code has it. For scores of shape [N, C], [N] labels in
    [0..C-1] and [C] class weights whose total over the labels is not zero,
    the loss is the sum over the samples of
    [w[labels[i]] * (-log(softmax(scores[i])[labels[i]]))] divided by the sum
    of the weights [w[labels[i]]] of the samples. *)
Theorem loss_is_weighted_mean (N C : nat) (w : list R)
  (scores : list (list R)) (labels : list nat)
  (Hscores : has_shape scores N C)
  (Hlabels : length labels = N)
  (Hrange : Forall (fun label => label < C) labels)
  (Hw : length w = C)
  (Htotal : sum (map (fun label => nth label w 0%R) labels) <> 0%R) :
  CrossEntropyLoss w scores labels
  = Ok (Spec.weighted_mean_loss w scores labels).
Proof.
  destruct Hscores as [HN HC]. subst C.
  apply CrossEntropyLoss_closed_form; auto. congruence.
Qed.

Lemma example_loss_value :
  CrossEntropyLoss Examples.class_weights Examples.scores Examples.labels
  = Ok (ln 2).
Proof.
  rewrite CrossEntropyLoss_closed_form;
    [|repeat constructor|reflexivity|repeat constructor].
  f_equal.
  unfold Spec.weighted_mean_loss, Spec.sample_losses, Spec.sample_loss,
    Spec.softmax, sum. simpl.
  rewrite exp_0.
  replace (1 / (1 + (1 + 0)))%R with (/ 2)%R by lra.
  rewrite ln_Rinv by lra. field.
Qed.

Lemma loss_is_weighted_mean_witness :
  CrossEntropyLoss Examples.class_weights Examples.scores Examples.labels
  = Ok (Spec.weighted_mean_loss Examples.class_weights Examples.scores
          Examples.labels).
Proof.
  apply (@loss_is_weighted_mean 1 2).
  - split; [reflexivity|repeat constructor].
  - reflexivity.
  - repeat constructor.
  - reflexivity.
  - unfold sum; simpl. lra.
Defined.

(** C2, as stated, fails: for one sample of class 1 with scores [0, 0] and
    the class weights [2/3, 2], all of the stated shapes, the arithmetic mean
    of the weighted sample losses is [2 * ln 2] while the loss is [ln 2]. *)
Lemma loss_is_not_arithmetic_mean :
  has_shape Examples.scores 1 2 /\
  length Examples.labels = 1 /\
  Forall (fun label => label < 2) Examples.labels /\
  Spec.mean_loss Examples.class_weights Examples.scores Examples.labels
  = (2 * ln 2)%R /\
  CrossEntropyLoss Examples.class_weights Examples.scores Examples.labels
  <> Ok (Spec.mean_loss Examples.class_weights Examples.scores
           Examples.labels).
Proof.
  assert (Hmean :
    Spec.mean_loss Examples.class_weights Examples.scores Examples.labels
    = (2 * ln 2)%R).
  { unfold Spec.mean_loss, Spec.mean, Spec.sample_losses, Spec.sample_loss,
      Spec.softmax, sum. simpl.
    rewrite exp_0.
    replace (1 / (1 + (1 + 0)))%R with (/ 2)%R by lra.
    rewrite ln_Rinv by lra. field. }
  split; [split; [reflexivity|repeat constructor]|].
  split; [reflexivity|]. split; [repeat constructor|].
  split; [exact Hmean|].
  rewrite Hmean, example_loss_value. intros H.
  injection H as H. pose proof ln_lt_2. lra.
Qed.

(** ** The optimizer step *)

Section SGDFacts.

Local Open Scope R_scope.

Variables lr momentum : R.

Lemma nth_zipWith {A B C : Type} (f : A -> B -> C) (a : list A) (b : list B)
  (i : nat) (da : A) (db : B) (dc : C) :
  (i < length a)%nat -> (i < length b)%nat ->
  nth i (zipWith f a b) dc = f (nth i a da) (nth i b db).
Proof.
  revert b i; induction a as [|x a IH]; intros [|y b] [|i] Ha Hb;
    simpl in *; try lia; auto.
  apply IH; lia.
Qed.

Lemma sgd_buf_length (buf : option (list R)) (g : list R) (n : nat) :
  length g = n -> buffer_length buf n ->
  length (sgd_buf momentum buf g) = n.
Proof.
  intros Hg Hb. destruct buf as [v|]; simpl in *; auto.
  rewrite zipWith_length, Hb, Hg. apply Nat.min_id.
Qed.

(** One rank-1 tensor: the new buffer and the new data are the momentum
    update of the old ones. *)
Lemma sgd_vec_update (theta g : list R) (buf : option (list R)) :
  length g = length theta -> buffer_length buf (length theta) ->
  Spec.momentum_update lr momentum theta buf g
    (map2 (fun p b => p + - lr * b) theta (sgd_buf momentum buf g))
    (sgd_buf momentum buf g).
Proof.
  intros Hg Hb.
  pose proof (sgd_buf_length buf g Hg Hb) as Hlen.
  split; [|split].
  - simpl. rewrite zipWith_length, Hlen. apply Nat.min_id.
  - exact Hlen.
  - intros i Hi. split.
    + destruct buf as [v|]; simpl in *.
      * rewrite nth_zipWith with (da := 0) (db := 0) by lia. reflexivity.
      * lra.
    + simpl. rewrite nth_zipWith with (da := 0) (db := 0) by lia. lra.
Qed.

Lemma has_shape_nth (m : list (list R)) (rows cols i : nat) :
  has_shape m rows cols -> (i < rows)%nat -> length (nth i m []) = cols.
Proof.
  intros [Hr Hc] Hi. rewrite Forall_forall in Hc.
  apply Hc, nth_In. lia.
Qed.

Lemma sgd_buf_matrix_length (buf : option (list (list R)))
  (g : list (list R)) (rows cols : nat) :
  has_shape g rows cols -> buffer_shape buf rows cols ->
  length (sgd_buf momentum buf g) = rows.
Proof.
  intros [Hg _] Hb. destruct buf as [v|]; simpl in *; auto.
  destruct Hb as [Hv _]. rewrite zipWith_length, Hv, Hg. apply Nat.min_id.
Qed.

Lemma sgd_buf_matrix_row (buf : option (list (list R)))
  (g : list (list R)) (rows cols i : nat) :
  has_shape g rows cols -> buffer_shape buf rows cols -> (i < rows)%nat ->
  nth i (sgd_buf momentum buf g) []
  = sgd_buf momentum (Spec.row buf i) (nth i g []).
Proof.
  intros [Hg _] Hb Hi. destruct buf as [v|]; simpl in *; auto.
  destruct Hb as [Hv _].
  apply nth_zipWith; lia.
Qed.

Lemma row_length (buf : option (list (list R))) (rows cols i : nat) :
  buffer_shape buf rows cols -> (i < rows)%nat ->
  buffer_length (Spec.row buf i) cols.
Proof.
  intros Hb Hi. destruct buf as [v|]; simpl in *; auto.
  apply (@has_shape_nth v rows cols i Hb Hi).
Qed.

(** One rank-2 tensor. *)
Lemma sgd_matrix_update (theta g : list (list R))
  (buf : option (list (list R))) (rows cols : nat) :
  has_shape theta rows cols -> has_shape g rows cols ->
  buffer_shape buf rows cols ->
  Spec.momentum_update_matrix lr momentum theta buf g
    (map2 (fun p b => p + - lr * b) theta (sgd_buf momentum buf g))
    (sgd_buf momentum buf g).
Proof.
  intros Ht Hg Hb.
  pose proof (@sgd_buf_matrix_length buf g rows cols Hg Hb) as Hlen.
  assert (Hrows : length theta = rows) by apply Ht.
  split; [|split].
  - simpl. rewrite zipWith_length, Hlen, Hrows. apply Nat.min_id.
  - congruence.
  - intros i Hi. rewrite Hrows in Hi.
    simpl map2. rewrite nth_zipWith with (da := []) (db := []) by lia.
    rewrite (@sgd_buf_matrix_row buf g rows cols i Hg Hb Hi).
    apply sgd_vec_update.
    + rewrite (@has_shape_nth g rows cols i Hg Hi), (@has_shape_nth theta rows cols i Ht Hi). reflexivity.
    + rewrite (@has_shape_nth theta rows cols i Ht Hi). apply (@row_length buf rows cols i Hb Hi).
Qed.

Lemma zipWith_ext {A B C : Type} (f h : A -> B -> C) (a : list A)
  (b : list B) :
  (forall x y, In x a -> In y b -> f x y = h x y) ->
  zipWith f a b = zipWith h a b.
Proof.
  revert b; induction a as [|x a IH]; intros [|y b] H; simpl; auto.
  f_equal; [apply H; simpl; auto|].
  apply IH. intros; apply H; simpl; auto.
Qed.

Lemma first_step_vec (theta g : list R) :
  map2 (fun p b => p + - lr * b) theta (sgd_buf momentum None g)
  = Spec.descend lr theta g.
Proof.
  simpl. unfold Spec.descend. apply zipWith_ext. intros; lra.
Qed.

Lemma first_step_matrix (theta g : list (list R)) :
  map2 (fun p b => p + - lr * b) theta (sgd_buf momentum None g)
  = Spec.descend_matrix lr theta g.
Proof.
  simpl. unfold Spec.descend_matrix. apply zipWith_ext.
  intros x y _ _. apply (first_step_vec x y).
Qed.

End SGDFacts.

(** C3. With learning rate [alpha = 0.008] and momentum [gamma = 0.5], a
    step on a model whose gradients are [g] updates every entry of each of
    the four parameter tensors, with that tensor's own velocity and
    gradient, by [v <- gamma*v + g] then [theta <- theta - alpha*v] (the
    velocity being 0 before the first step); a first step therefore leaves
    [theta - alpha*g] in every tensor. *)
Theorem sgd_step_momentum (m : MLP) (bufs : Buffers) (g : Gradients)
  (num_input hidden1_size num_classes : nat)
  (Hm : MLP_shape m num_input hidden1_size num_classes)
  (Hg : has_grads m g)
  (Hgs : Gradients_shape g num_input hidden1_size num_classes)
  (Hbs : Buffers_shape bufs num_input hidden1_size num_classes) :
  alpha = 0.008%R /\ gamma = 0.5%R /\
  exists (m' : MLP) (vW1 : list (list R)) (vb1 : list R)
         (vW2 : list (list R)) (vb2 : list R),
    sgd_step m (mkSGD alpha gamma bufs)
    = (m', mkSGD alpha gamma
             (mkBuffers (Some vW1) (Some vb1) (Some vW2) (Some vb2))) /\
    Spec.momentum_update_matrix alpha gamma
      (data (weight (hidden1 m))) (buf_hidden1_weight bufs)
      (d_hidden1_weight g) (data (weight (hidden1 m'))) vW1 /\
    Spec.momentum_update alpha gamma
      (data (bias (hidden1 m))) (buf_hidden1_bias bufs)
      (d_hidden1_bias g) (data (bias (hidden1 m'))) vb1 /\
    Spec.momentum_update_matrix alpha gamma
      (data (weight (output m))) (buf_output_weight bufs)
      (d_output_weight g) (data (weight (output m'))) vW2 /\
    Spec.momentum_update alpha gamma
      (data (bias (output m))) (buf_output_bias bufs)
      (d_output_bias g) (data (bias (output m'))) vb2 /\
    (bufs = mkBuffers None None None None ->
     parameters m'
     = (Spec.descend_matrix alpha (data (weight (hidden1 m)))
          (d_hidden1_weight g),
        Spec.descend alpha (data (bias (hidden1 m))) (d_hidden1_bias g),
        Spec.descend_matrix alpha (data (weight (output m)))
          (d_output_weight g),
        Spec.descend alpha (data (bias (output m))) (d_output_bias g))).
Proof.
  split; [reflexivity|]. split; [reflexivity|].
  destruct Hg as (G1 & G2 & G3 & G4).
  destruct Hm as [(_ & _ & S1 & S2) (_ & _ & S3 & S4)].
  destruct Hgs as (T1 & T2 & T3 & T4).
  destruct Hbs as (B1 & B2 & B3 & B4).
  unfold sgd_step; cbn [state lr momentum].
  unfold sgd_param. rewrite G1, G2, G3, G4.
  do 5 eexists. split; [reflexivity|].
  cbn [hidden1 output weight bias data].
  split; [exact (sgd_matrix_update alpha gamma _ S1 T1 B1)|].
  split; [apply sgd_vec_update; [congruence|rewrite S2; exact B2]|].
  split; [exact (sgd_matrix_update alpha gamma _ S3 T3 B3)|].
  split; [apply sgd_vec_update; [congruence|rewrite S4; exact B4]|].
  intros ->. unfold parameters.
  cbn [hidden1 output weight bias data buf_hidden1_weight buf_hidden1_bias
       buf_output_weight buf_output_bias].
  rewrite !first_step_vec, !first_step_matrix. reflexivity.
Qed.

Lemma example_has_grads :
  has_grads Examples.model_after_backward Examples.gradients.
Proof. repeat split. Qed.

Lemma example_gradients_shape : Gradients_shape Examples.gradients 3 2 2.
Proof.
  unfold Gradients_shape, has_shape; simpl.
  repeat split; repeat constructor.
Qed.

Lemma sgd_step_momentum_witness :
  parameters
    (fst (sgd_step Examples.model_after_backward MLP_optimizer))
  = (Spec.descend_matrix alpha [[1; 0; -1]; [0; 1; 0]]%R
       [[1; 1; 1]; [0; 0; 2]]%R,
     Spec.descend alpha [0; 1]%R [1; 0]%R,
     Spec.descend_matrix alpha [[1; 1]; [0; -1]]%R [[0; 1]; [1; 0]]%R,
     Spec.descend alpha [0; 0]%R [1; -1]%R).
Proof.
  assert (Hm : MLP_shape Examples.model_after_backward 3 2 2)
    by exact example_model_shape.
  assert (Hb : Buffers_shape (mkBuffers None None None None) 3 2 2)
    by (repeat split).
  destruct (sgd_step_momentum Hm example_has_grads example_gradients_shape Hb)
    as (_ & _ & m' & v1 & v2 & v3 & v4 & Hstep & _ & _ & _ & _ & Hfirst).
  unfold MLP_optimizer. rewrite Hstep. exact (Hfirst eq_refl).
Defined.

(** ** Precision *)

Section PrecisionFacts.

Import Sklearn.

Lemma count_pairs_no_positive (f : nat -> nat -> bool)
  (y_true y_pred : list nat) :
  (forall t p, f t p = true -> p = 1) ->
  count_occ Nat.eq_dec y_pred 1 = 0 ->
  count_pairs f y_true y_pred = 0.
Proof.
  intros Hf. unfold count_pairs.
  revert y_pred; induction y_true as [|t y_true IH]; intros [|p y_pred] Hc;
    simpl in *; auto.
  destruct (Nat.eq_dec p 1) as [->|Hp]; [discriminate|].
  destruct (f t p) eqn:E; [apply Hf in E; contradiction|].
  apply IH; assumption.
Qed.

Lemma binary_present_labels (l : list nat) :
  Forall (fun y => y <= 1) l ->
  length (nodup Nat.eq_dec l) <= 2 /\
  (~ In 1 l -> length (nodup Nat.eq_dec l) <= 1).
Proof.
  intros Hl. rewrite Forall_forall in Hl. split.
  - apply (NoDup_incl_length (l' := [0; 1])); [apply NoDup_nodup|].
    intros y Hy. apply nodup_In in Hy. specialize (Hl y Hy).
    simpl. lia.
  - intros H1.
    apply (NoDup_incl_length (l' := [0])); [apply NoDup_nodup|].
    intros y Hy. apply nodup_In in Hy. specialize (Hl y Hy).
    assert (y <> 1) by (intros ->; contradiction).
    simpl. lia.
Qed.

Lemma existsb_eqb_In (a : nat) (l : list nat) :
  existsb (Nat.eqb a) l = true <-> In a l.
Proof.
  rewrite existsb_exists. split.
  - intros (x & Hx & E). apply Nat.eqb_eq in E. subst; assumption.
  - intros H. exists a. split; [assumption|apply Nat.eqb_refl].
Qed.

End PrecisionFacts.

(** C7. For non-empty label sequences over {0,1} of equal length in which
    no prediction is 1 (the predicted-positive count TP+FP is zero),
    [precision_score(..., zero_division=1)] raises nothing and returns the
    fallback 1. (On sequences with no sample the call raises [ValueError],
    see [precision_empty_input].) *)
Theorem precision_zero_division (y_true y_pred : list nat)
  (Hne : y_true <> [])
  (Hlen : length y_true = length y_pred)
  (Htrue : Forall (fun y => y <= 1) y_true)
  (Hpred : Forall (fun y => y <= 1) y_pred)
  (Hnone : count_occ Nat.eq_dec y_pred 1 = 0) :
  Sklearn.true_positives 1 y_true y_pred
  + Sklearn.false_positives 1 y_true y_pred = 0 /\
  Sklearn.precision_score y_true y_pred 1 = Ok 1%Q.
Proof.
  assert (Htp : Sklearn.true_positives 1 y_true y_pred = 0).
  { apply count_pairs_no_positive; [|exact Hnone].
    intros t p H. apply andb_prop in H. apply Nat.eqb_eq, H. }
  assert (Hfp : Sklearn.false_positives 1 y_true y_pred = 0).
  { apply count_pairs_no_positive; [|exact Hnone].
    intros t p H. apply andb_prop in H. apply Nat.eqb_eq, H. }
  split; [lia|].
  unfold Sklearn.precision_score.
  replace (length y_true =? 0) with false
    by (destruct y_true; [contradiction|reflexivity]).
  rewrite Hlen, Nat.eqb_refl. cbn [negb].
  assert (Hall : Forall (fun y => y <= 1) (y_true ++ y_pred))
    by (apply Forall_app; split; assumption).
  destruct (binary_present_labels Hall) as [H2 H1].
  replace (2 <? length (nodup Nat.eq_dec (y_true ++ y_pred))) with false
    by (symmetry; apply Nat.ltb_ge; exact H2).
  destruct (existsb (Nat.eqb 1) (nodup Nat.eq_dec (y_true ++ y_pred)))
    eqn:E; cbn [negb andb].
  - rewrite Htp, Hfp. reflexivity.
  - assert (Hno : ~ In 1 (y_true ++ y_pred)).
    { intros Hin. apply (nodup_In Nat.eq_dec) in Hin.
      apply existsb_eqb_In in Hin. congruence. }
    replace (2 <=? length (nodup Nat.eq_dec (y_true ++ y_pred))) with false
      by (symmetry; apply Nat.leb_gt; specialize (H1 Hno); lia).
    rewrite Htp, Hfp. reflexivity.
Qed.

Lemma precision_zero_division_witness :
  Sklearn.precision_score [0; 1; 0] [0; 0; 0] 1 = Ok 1%Q.
Proof.
  apply (precision_zero_division (y_true := [0; 1; 0]) (y_pred := [0; 0; 0])).
  - discriminate.
  - reflexivity.
  - repeat constructor.
  - repeat constructor.
  - reflexivity.
Defined.

(** With one true and one false positive the precision is 1/2. *)
Example precision_example :
  Sklearn.precision_score [0; 1; 1; 0] [1; 1; 0; 0] 1 = Ok (1 # 2)%Q.
Proof. reflexivity. Qed.

(** No precision is defined on sequences with no sample: the input
    validation raises, whatever [zero_division] is. *)
Example precision_empty_input (zero_division : Q) :
  Sklearn.precision_score [] [] zero_division = Raise ValueError.
Proof. reflexivity. Qed.

(** ** The evaluation loop *)

Section EvaluationFacts.

Lemma keeps_ret {A : Type} (a : A) : keeps_objects (ret a).
Proof. intros w; split; reflexivity. Qed.

Lemma keeps_lift {A : Type} (r : result A) : keeps_objects (lift r).
Proof. intros w; split; reflexivity. Qed.

Lemma keeps_record (c : call) : keeps_objects (record c).
Proof. intros w; split; reflexivity. Qed.

Lemma keeps_bind {A B : Type} (c : M A) (k : A -> M B) :
  keeps_objects c -> (forall a, keeps_objects (k a)) ->
  keeps_objects (bind c k).
Proof.
  intros Hc Hk w. unfold bind.
  destruct (Hc w) as [Hm Ho]. destruct (c w) as [w' [a|e]]; simpl in *.
  - destruct (Hk a w') as [Hm' Ho']. split; congruence.
  - split; assumption.
Qed.

Lemma keeps_call_model (features : list (list R)) :
  keeps_objects (call_model features).
Proof.
  unfold call_model. apply keeps_bind; [apply keeps_record|].
  intros _ w; split; reflexivity.
Qed.

Lemma keeps_test_loop (batches : list batch)
  (predicted_labels true_labels : list nat) (num_samples : option nat) :
  keeps_objects (test_loop batches predicted_labels true_labels num_samples).
Proof.
  revert predicted_labels true_labels num_samples.
  induction batches as [|[features labels] rest IH]; intros p t n.
  - apply keeps_ret.
  - cbn [test_loop].
    apply keeps_bind; [apply keeps_call_model|intros output].
    apply keeps_bind; [apply keeps_lift|intros predictions].
    apply keeps_bind; [apply keeps_lift|intros num_correct].
    apply keeps_bind; [apply keeps_lift|intros accuracy].
    apply IH.
Qed.

Lemma test_ANN_model_objects (testing_data : list batch) (w : world) :
  ANN_model (fst (test_ANN_model testing_data w))
  = set_training false (ANN_model w) /\
  optimizer (fst (test_ANN_model testing_data w)) = optimizer w.
Proof.
  unfold test_ANN_model.
  set (rest := bind (test_loop testing_data [] [] None) _).
  assert (Hrest : keeps_objects rest).
  { apply keeps_bind; [apply keeps_test_loop|].
    intros [[p t] [n|]]; [apply keeps_ret|apply keeps_lift]. }
  unfold bind at 1, set_model.
  destruct (Hrest (mkWorld (set_training false (ANN_model w))
                     (optimizer w) (calls w))) as [Hm Ho].
  split; assumption.
Qed.

End EvaluationFacts.

(** C6. Whatever the model, the optimizer and the test batches, and whether
    the loop returns or raises, evaluation leaves both layers of the model
    (weights, biases and their gradient slots) and the whole optimizer
    (learning rate, momentum and velocity buffers) as they were; only the
    model's mode flag is set to evaluation. *)
Theorem test_ANN_model_frame (testing_data : list batch) (w : world) :
  parameters (ANN_model (fst (test_ANN_model testing_data w)))
  = parameters (ANN_model w) /\
  state (optimizer (fst (test_ANN_model testing_data w)))
  = state (optimizer w) /\
  hidden1 (ANN_model (fst (test_ANN_model testing_data w)))
  = hidden1 (ANN_model w) /\
  output (ANN_model (fst (test_ANN_model testing_data w)))
  = output (ANN_model w) /\
  training (ANN_model (fst (test_ANN_model testing_data w))) = false /\
  optimizer (fst (test_ANN_model testing_data w)) = optimizer w.
Proof.
  destruct (test_ANN_model_objects testing_data w) as [Hm Ho].
  rewrite Hm, Ho. unfold parameters, set_training. cbn.
  repeat split.
Qed.

(** The example batch is classified as class 0; an empty loader leaves
    [num_samples] unbound. *)
Example test_example :
  snd (test_ANN_model [(Examples.X, [0])]
         (mkWorld Examples.model MLP_optimizer []))
  = Ok ([0], [0]).
Proof.
  cbv [test_ANN_model test_loop bind set_model call_model record lift ret
       ANN_model optimizer calls].
  change (forward (set_training false Examples.model) Examples.X)
    with (forward Examples.model Examples.X).
  rewrite forward_example.
  cbn [argmax_rows argmax argmax_from rbind].
  destruct (Rlt_dec 3 (-3)) as [H|H]; [lra|]. reflexivity.
Qed.

Example test_empty_loader (w : world) :
  snd (test_ANN_model [] w) = Raise UnboundLocalError.
Proof. reflexivity. Qed.

(** ** The training loop *)

Section ShapeFacts.

Local Open Scope R_scope.

Lemma forward_clear_grad (m : MLP) (x : list (list R)) :
  forward (map_params clear_grad clear_grad m) x = forward m x.
Proof. reflexivity. Qed.

Lemma linear_defined (l : Linear) (n_in n_out : nat) (x : list (list R)) :
  Linear_shape l n_in n_out ->
  Forall (fun row => length row = n_in) x ->
  exists out, linear l x = Ok out /\ has_shape out (length x) n_out.
Proof.
  intros Hl Hx. eexists. split.
  - unfold linear.
    destruct Hl as (Hin & _). rewrite Hin, (forallb_length Hx). reflexivity.
  - split; [apply length_map|].
    apply Forall_forall. intros r Hr. apply in_map_iff in Hr.
    destruct Hr as (row & <- & _).
    apply (linear_row_length row Hl).
Qed.

Lemma forward_defined (m : MLP) (ni nh nc : nat) (x : list (list R)) :
  MLP_shape m ni nh nc ->
  Forall (fun row => length row = ni) x ->
  exists out, forward m x = Ok out /\ has_shape out (length x) nc.
Proof.
  intros [H1 H2] Hx.
  destruct (linear_defined H1 Hx) as (h & Hh & Hlen & Hrows).
  assert (Hrelu : Forall (fun row => length row = nh) (relu h)).
  { apply (relu_shape (conj Hlen Hrows)). }
  destruct (linear_defined H2 Hrelu) as (out & Hout & Hshape).
  exists out. split.
  - unfold forward. rewrite Hh. exact Hout.
  - unfold relu in Hshape. rewrite length_map, Hlen in Hshape.
    exact Hshape.
Qed.

Lemma momentum_update_length (a g : R) (theta : list R)
  (v : option (list R)) (d theta' v' : list R) (n : nat) :
  Spec.momentum_update a g theta v d theta' v' ->
  length theta = n -> length theta' = n /\ length v' = n.
Proof. intros (H1 & H2 & _) Hn. split; congruence. Qed.

Lemma momentum_update_matrix_shape (a g : R) (theta : list (list R))
  (v : option (list (list R))) (d theta' v' : list (list R))
  (rows cols : nat) :
  Spec.momentum_update_matrix a g theta v d theta' v' ->
  has_shape theta rows cols ->
  has_shape theta' rows cols /\ has_shape v' rows cols.
Proof.
  intros (H1 & H2 & Hrow) Ht.
  assert (Hr : length theta = rows) by apply Ht.
  assert (Hboth : forall i, (i < rows)%nat ->
            length (nth i theta' []) = cols /\ length (nth i v' []) = cols).
  { intros i Hi. rewrite <- Hr in Hi.
    apply (momentum_update_length (Hrow i Hi)).
    rewrite Hr in Hi. apply (has_shape_nth Ht Hi). }
  split; (split; [congruence|]); apply Forall_forall; intros r Hin;
    apply (In_nth _ _ []) in Hin; destruct Hin as (i & Hi & <-);
    apply Hboth; lia.
Qed.

Lemma sgd_step_shape (m : MLP) (o : SGD) (g : Gradients) (ni nh nc : nat) :
  MLP_shape m ni nh nc -> has_grads m g -> Gradients_shape g ni nh nc ->
  Buffers_shape (state o) ni nh nc ->
  MLP_shape (fst (sgd_step m o)) ni nh nc /\
  Buffers_shape (state (snd (sgd_step m o))) ni nh nc /\
  has_grads (fst (sgd_step m o)) g.
Proof.
  intros [(I1 & O1 & S1 & S2) (I2 & O2 & S3 & S4)] (G1 & G2 & G3 & G4)
    (T1 & T2 & T3 & T4) (B1 & B2 & B3 & B4).
  unfold sgd_step, sgd_param. rewrite G1, G2, G3, G4.
  cbn [fst snd state].
  pose proof (momentum_update_matrix_shape
    (sgd_matrix_update (lr o) (momentum o) _ S1 T1 B1) S1) as [P1 Q1].
  pose proof (momentum_update_matrix_shape
    (sgd_matrix_update (lr o) (momentum o) _ S3 T3 B3) S3) as [P3 Q3].
  assert (U2 : Spec.momentum_update (lr o) (momentum o)
                 (data (bias (hidden1 m))) (buf_hidden1_bias (state o))
                 (d_hidden1_bias g)
                 (map2 (fun p b => p + - lr o * b) (data (bias (hidden1 m)))
                    (sgd_buf (momentum o) (buf_hidden1_bias (state o))
                       (d_hidden1_bias g)))
                 (sgd_buf (momentum o) (buf_hidden1_bias (state o))
                    (d_hidden1_bias g)))
    by (apply sgd_vec_update; [congruence|rewrite S2; exact B2]).
  assert (U4 : Spec.momentum_update (lr o) (momentum o)
                 (data (bias (output m))) (buf_output_bias (state o))
                 (d_output_bias g)
                 (map2 (fun p b => p + - lr o * b) (data (bias (output m)))
                    (sgd_buf (momentum o) (buf_output_bias (state o))
                       (d_output_bias g)))
                 (sgd_buf (momentum o) (buf_output_bias (state o))
                    (d_output_bias g)))
    by (apply sgd_vec_update; [congruence|rewrite S4; exact B4]).
  destruct (momentum_update_length U2 S2) as [P2 Q2].
  destruct (momentum_update_length U4 S4) as [P4 Q4].
  repeat split; cbn;
    first [assumption|apply P1|apply Q1|apply P3|apply Q3].
Qed.

End ShapeFacts.

Section TrainingFacts.

Variable loss_func : list (list R) -> list nat -> result R.
Variable autograd : MLP -> list (list R) -> list nat -> Gradients.
Variables num_input hidden1_size num_classes : nat.

(** The engine returns one gradient per parameter, of the parameter's
    shape; the loss is defined on scores of shape [N, num_classes] and [N]
    class indices. *)
Hypothesis autograd_shape :
  forall m x y,
    MLP_shape m num_input hidden1_size num_classes ->
    Gradients_shape (autograd m x y) num_input hidden1_size num_classes.
Hypothesis loss_defined :
  forall out y,
    has_shape out (length y) num_classes ->
    Forall (fun label => label < num_classes) y ->
    exists l, loss_func out y = Ok l.

Local Abbreviation shaped := (well_shaped num_input hidden1_size num_classes).
Local Abbreviation ok := (batch_ok num_input num_classes).
Local Abbreviation next := (after_batch loss_func autograd).
Local Abbreviation cleared :=
  (map_params (@clear_grad (list (list R))) (@clear_grad (list R))).

Lemma train_batch_run (b : batch) (w : world) :
  shaped w -> ok b ->
  exists (l : R) (w' : world),
    batch_loss loss_func w b = Ok l /\
    (forall ls, train_batch loss_func autograd b ls w = (w', Ok (ls ++ [l])))
    /\ shaped w' /\
    calls w' = calls w ++ iteration_calls /\
    has_grads (ANN_model w')
      (autograd (cleared (ANN_model w)) (fst b) (snd b)) /\
    (ANN_model w', optimizer w')
    = sgd_step
        (accumulate_all (autograd (cleared (ANN_model w)) (fst b) (snd b))
           (cleared (ANN_model w)))
        (optimizer w).
Proof.
  destruct b as [x y]. intros [Hm Hb] (Hx & Hlen & Hy). cbn [fst snd] in *.
  destruct (forward_defined Hm Hx) as (out & Hout & Hshape).
  rewrite <- Hlen in Hshape.
  destruct (loss_defined Hshape Hy) as (l & Hl).
  set (g := autograd (cleared (ANN_model w)) x y).
  set (m1 := accumulate_all g (cleared (ANN_model w))).
  assert (Hm1 : MLP_shape m1 num_input hidden1_size num_classes)
    by exact Hm.
  assert (Hg1 : has_grads m1 g) by (repeat split).
  assert (Hgs : Gradients_shape g num_input hidden1_size num_classes)
    by (apply autograd_shape; exact Hm).
  destruct (sgd_step_shape (optimizer w) Hm1 Hg1 Hgs Hb)
    as (Hm' & Hb' & Hg').
  exists l.
  exists (mkWorld (fst (sgd_step m1 (optimizer w)))
            (snd (sgd_step m1 (optimizer w)))
            (calls w ++ iteration_calls)).
  split; [|split; [|split; [|split; [|split]]]].
  - unfold batch_loss. cbn [fst snd]. rewrite Hout. exact Hl.
  - intros ls.
    unfold train_batch, zero_grad, call_model, call_loss, backward, step.
    unfold bind, record, set_model, lift, ret.
    cbn [ANN_model optimizer calls].
    rewrite forward_clear_grad, Hout, Hl.
    fold g. fold m1.
    rewrite (surjective_pairing (sgd_step m1 (optimizer w))).
    unfold iteration_calls. repeat rewrite <- app_assoc. reflexivity.
  - split; assumption.
  - reflexivity.
  - exact Hg'.
  - cbn [ANN_model optimizer]. symmetry. apply surjective_pairing.
Qed.

Lemma after_batch_run (b : batch) (w : world) :
  shaped w -> ok b ->
  exists l : R,
    batch_loss loss_func w b = Ok l /\
    (forall ls,
        train_batch loss_func autograd b ls w = (next w b, Ok (ls ++ [l]))) /\
    shaped (next w b) /\
    calls (next w b) = calls w ++ iteration_calls /\
    has_grads (ANN_model (next w b))
      (autograd (cleared (ANN_model w)) (fst b) (snd b)).
Proof.
  intros Hw Hb.
  destruct (train_batch_run Hw Hb) as (l & w' & Hl & Hrun & Hw' & Hc & Hg & _).
  assert (Hnext : next w b = w').
  { unfold after_batch. rewrite (Hrun []). reflexivity. }
  rewrite Hnext. exists l.
  split; [exact Hl|]. split; [exact Hrun|]. split; [exact Hw'|].
  split; [exact Hc|exact Hg].
Qed.

Lemma loss_history_app (a b : list batch) (w : world) :
  loss_history loss_func autograd w (a ++ b)
  = loss_history loss_func autograd w a
    ++ loss_history loss_func autograd (fold_left next a w) b.
Proof.
  revert w; induction a as [|x a IH]; intros w; simpl; [reflexivity|].
  rewrite IH. reflexivity.
Qed.

Lemma loss_history_length (batches : list batch) (w : world) :
  length (loss_history loss_func autograd w batches) = length batches.
Proof.
  revert w; induction batches as [|b rest IH]; intros w; simpl; auto.
Qed.

Lemma train_epoch_run (batches : list batch) (w : world) (ls : list R) :
  shaped w -> Forall ok batches ->
  exists ls' : list R,
    train_epoch loss_func autograd batches ls w
    = (fold_left next batches w, Ok (ls ++ ls')) /\
    map Ok ls' = loss_history loss_func autograd w batches /\
    shaped (fold_left next batches w) /\
    calls (fold_left next batches w)
    = calls w ++ concat (map (fun _ => iteration_calls) batches).
Proof.
  intros Hw Hbs. revert w ls Hw.
  induction Hbs as [|b rest Hb _ IH]; intros w ls Hw.
  - exists []. cbn. rewrite !app_nil_r. auto.
  - destruct (after_batch_run Hw Hb) as (l & Hl & Hrun & Hw' & Hc & _).
    destruct (IH (next w b) (ls ++ [l]) Hw') as (ls' & Hrest & Hh & Hs & Hcs).
    exists (l :: ls'). cbn [train_epoch fold_left loss_history map concat].
    split; [|split; [|split]].
    + unfold bind. rewrite Hrun. rewrite Hrest.
      rewrite <- app_assoc. reflexivity.
    + rewrite Hh, Hl. reflexivity.
    + exact Hs.
    + rewrite Hcs, Hc, <- app_assoc. reflexivity.
Qed.

Lemma train_epochs_run (training_data : nat -> list batch)
  (remaining epoch_cnt : nat) (w : world) (ls : list R) :
  shaped w ->
  (forall e, epoch_cnt <= e < epoch_cnt + remaining ->
             Forall ok (training_data e)) ->
  let batches := concat (map training_data (seq epoch_cnt remaining)) in
  exists ls' : list R,
    train_epochs loss_func autograd training_data remaining epoch_cnt ls w
    = (fold_left next batches w, Ok (ls ++ ls')) /\
    map Ok ls' = loss_history loss_func autograd w batches /\
    shaped (fold_left next batches w) /\
    calls (fold_left next batches w)
    = calls w ++ concat (map (fun _ => iteration_calls) batches).
Proof.
  revert epoch_cnt w ls.
  induction remaining as [|k IH]; intros e0 w ls Hw Hok; cbn zeta.
  - exists []. cbn. rewrite !app_nil_r. auto.
  - assert (Hfirst : Forall ok (training_data e0)) by (apply Hok; lia).
    destruct (train_epoch_run ls Hw Hfirst) as (l1 & Hrun1 & Hh1 & Hw1 & Hc1).
    destruct (IH (S e0) (fold_left next (training_data e0) w) (ls ++ l1) Hw1)
      as (l2 & Hrun2 & Hh2 & Hw2 & Hc2); [intros e He; apply Hok; lia|].
    exists (l1 ++ l2).
    cbn [seq map concat train_epochs].
    rewrite fold_left_app, loss_history_app, !map_app, concat_app.
    split; [|split; [|split]].
    + unfold bind. rewrite Hrun1, Hrun2, <- app_assoc. reflexivity.
    + rewrite Hh1, Hh2. reflexivity.
    + exact Hw2.
    + rewrite Hc2, Hc1, <- app_assoc. reflexivity.
Qed.

Lemma concat_length_const (B : nat) (l : list (list batch)) :
  Forall (fun bs => length bs = B) l ->
  length (concat l) = length l * B.
Proof.
  induction 1 as [|bs l Hbs _ IH]; simpl; [reflexivity|].
  rewrite length_app, IH, Hbs. reflexivity.
Qed.

Lemma processed_length (training_data : nat -> list batch) (num_epochs : Z)
  (B : nat) :
  (0 <= num_epochs)%Z ->
  (forall e, (Z.of_nat e < num_epochs)%Z -> length (training_data e) = B) ->
  Z.of_nat (length (processed training_data num_epochs))
  = (num_epochs * Z.of_nat B)%Z.
Proof.
  intros Hn HB. unfold processed.
  rewrite (concat_length_const (B := B)).
  - rewrite length_map, length_seq. lia.
  - apply Forall_forall. intros bs Hin. apply in_map_iff in Hin.
    destruct Hin as (e & <- & He). apply in_seq in He. apply HB. lia.
Qed.

(** The whole loop, from a well-shaped start on acceptable batches. *)
Lemma train_ANN_model_run (num_epochs : Z) (training_data : nat -> list batch)
  (w : world) :
  shaped w ->
  (forall e, (Z.of_nat e < num_epochs)%Z -> Forall ok (training_data e)) ->
  let w1 := mkWorld (set_training true (ANN_model w)) (optimizer w) (calls w) in
  let batches := processed training_data num_epochs in
  exists losses : list R,
    train_ANN_model loss_func autograd num_epochs training_data w
    = (fold_left next batches w1, Ok losses) /\
    map Ok losses = loss_history loss_func autograd w1 batches /\
    shaped (fold_left next batches w1) /\
    calls (fold_left next batches w1)
    = calls w ++ concat (map (fun _ => iteration_calls) batches).
Proof.
  intros Hw Hok w1 batches.
  assert (Hw1 : shaped w1) by exact Hw.
  destruct (@train_epochs_run training_data (Z.to_nat num_epochs) 0 w1 []
              Hw1) as (ls & Hrun & Hh & Hs & Hc).
  { intros e He. apply Hok. lia. }
  exists ls. unfold train_ANN_model, bind, set_model.
  fold w1. rewrite Hrun.
  split; [reflexivity|]. split; [exact Hh|]. split; [exact Hs|exact Hc].
Qed.

End TrainingFacts.

Section ProcessedFacts.

Lemma processed_ok (ni nc : nat) (training_data : nat -> list batch)
  (num_epochs : Z) :
  (forall e, (Z.of_nat e < num_epochs)%Z ->
             Forall (batch_ok ni nc) (training_data e)) ->
  Forall (batch_ok ni nc) (processed training_data num_epochs).
Proof.
  intros Hok. unfold processed. apply Forall_concat.
  apply Forall_forall. intros bs Hin. apply in_map_iff in Hin.
  destruct Hin as (e & <- & He). apply in_seq in He. apply Hok. lia.
Qed.

Lemma CrossEntropyLoss_defined (w : list R) (nc : nat)
  (out : list (list R)) (y : list nat) :
  length w = nc ->
  has_shape out (length y) nc ->
  Forall (fun label => label < nc) y ->
  exists l, CrossEntropyLoss w out y = Ok l.
Proof.
  intros Hw [Hlen Hrows] Hy. subst nc. eexists.
  apply CrossEntropyLoss_closed_form; auto.
Qed.

Lemma example_start_shaped : well_shaped 3 2 2 Examples.start.
Proof. split; [exact example_model_shape|repeat split]. Qed.

Lemma example_engine_shape (m : MLP) (x : list (list R)) (y : list nat) :
  MLP_shape m 3 2 2 -> Gradients_shape (Examples.engine m x y) 3 2 2.
Proof. intros _. exact example_gradients_shape. Qed.

Lemma example_loss_defined (out : list (list R)) (y : list nat) :
  has_shape out (length y) 2 -> Forall (fun label => label < 2) y ->
  exists l, Examples.loss_func out y = Ok l.
Proof. apply CrossEntropyLoss_defined. reflexivity. Qed.

Lemma example_loader_ok (num_epochs : Z) (e : nat) :
  (Z.of_nat e < num_epochs)%Z -> Forall (batch_ok 3 2) (Examples.loader e).
Proof.
  intros _. repeat constructor.
Qed.

End ProcessedFacts.

(** C10. From well-shaped objects, with [num_epochs >= 0] and [B]
    acceptable batches on every traversal of the loader, the loop returns a
    list of [num_epochs * B] losses whose entries are, in order, the losses
    of the batches in processing order, each computed on the model as the
    preceding batches left it. *)
Theorem train_losses_one_per_batch
  (loss_func : list (list R) -> list nat -> result R)
  (autograd : MLP -> list (list R) -> list nat -> Gradients)
  (num_input hidden1_size num_classes : nat)
  (num_epochs : Z) (training_data : nat -> list batch) (B : nat) (w : world)
  (Hengine : forall m x y,
      MLP_shape m num_input hidden1_size num_classes ->
      Gradients_shape (autograd m x y) num_input hidden1_size num_classes)
  (Hloss : forall out y,
      has_shape out (length y) num_classes ->
      Forall (fun label => label < num_classes) y ->
      exists l, loss_func out y = Ok l)
  (Hepochs : (0 <= num_epochs)%Z)
  (Hw : well_shaped num_input hidden1_size num_classes w)
  (HB : forall e, (Z.of_nat e < num_epochs)%Z ->
                  length (training_data e) = B)
  (Hok : forall e, (Z.of_nat e < num_epochs)%Z ->
                   Forall (batch_ok num_input num_classes) (training_data e)) :
  exists (w' : world) (train_losses : list R),
    train_ANN_model loss_func autograd num_epochs training_data w
    = (w', Ok train_losses) /\
    Z.of_nat (length train_losses) = (num_epochs * Z.of_nat B)%Z /\
    map Ok train_losses
    = loss_history loss_func autograd (started w)
        (processed training_data num_epochs).
Proof.
  destruct (@train_ANN_model_run loss_func autograd num_input hidden1_size
              num_classes Hengine Hloss num_epochs training_data w Hw Hok)
    as (losses & Hrun & Hhist & _ & _).
  fold (started w) in Hrun, Hhist.
  eexists. exists losses. split; [exact Hrun|]. split; [|exact Hhist].
  rewrite <- (@processed_length training_data num_epochs B Hepochs HB).
  rewrite <- (@loss_history_length loss_func autograd
                (processed training_data num_epochs) (started w)).
  rewrite <- Hhist, length_map. reflexivity.
Qed.

Lemma train_losses_one_per_batch_witness :
  exists (w' : world) (train_losses : list R),
    train_ANN_model Examples.loss_func Examples.engine 2 Examples.loader
      Examples.start
    = (w', Ok train_losses) /\
    Z.of_nat (length train_losses) = (2 * 1)%Z.
Proof.
  destruct (@train_losses_one_per_batch Examples.loss_func Examples.engine
              3 2 2 2%Z Examples.loader 1 Examples.start
              example_engine_shape example_loss_defined
              ltac:(lia) example_start_shaped
              (fun e _ => eq_refl) (@example_loader_ok 2%Z))
    as (w' & losses & Hrun & Hlen & _).
  exists w', losses. split; assumption.
Defined.

(** C5, as the code has it. Every iteration calls, in this order, the
    gradient reset, the forward pass, the loss, the backward pass and the
    optimizer step; and the gradients the model holds after the iteration on
    a batch are those the engine computes for that batch on the model with
    its gradient slots cleared, whatever the batches before left in them. *)
Theorem training_iteration_order
  (loss_func : list (list R) -> list nat -> result R)
  (autograd : MLP -> list (list R) -> list nat -> Gradients)
  (num_input hidden1_size num_classes : nat)
  (num_epochs : Z) (training_data : nat -> list batch) (w : world)
  (Hengine : forall m x y,
      MLP_shape m num_input hidden1_size num_classes ->
      Gradients_shape (autograd m x y) num_input hidden1_size num_classes)
  (Hloss : forall out y,
      has_shape out (length y) num_classes ->
      Forall (fun label => label < num_classes) y ->
      exists l, loss_func out y = Ok l)
  (Hw : well_shaped num_input hidden1_size num_classes w)
  (Hok : forall e, (Z.of_nat e < num_epochs)%Z ->
                   Forall (batch_ok num_input num_classes) (training_data e)) :
  exists (w' : world) (train_losses : list R),
    train_ANN_model loss_func autograd num_epochs training_data w
    = (w', Ok train_losses) /\
    calls w'
    = calls w
      ++ concat (map (fun _ => [ZeroGrad; Forward; Loss; Backward; Step])
                   (processed training_data num_epochs)) /\
    forall (before : list batch) (b : batch) (rest : list batch),
      processed training_data num_epochs = before ++ b :: rest ->
      let wk := fold_left (after_batch loss_func autograd) before (started w) in
      has_grads (ANN_model (after_batch loss_func autograd wk b))
        (autograd (map_params clear_grad clear_grad (ANN_model wk))
           (fst b) (snd b)).
Proof.
  destruct (@train_ANN_model_run loss_func autograd num_input hidden1_size
              num_classes Hengine Hloss num_epochs training_data w Hw Hok)
    as (losses & Hrun & _ & _ & Hcalls).
  eexists. exists losses. split; [exact Hrun|]. split; [exact Hcalls|].
  intros before b rest Hsplit wk.
  pose proof (@processed_ok num_input num_classes training_data num_epochs
                Hok) as Hall.
  rewrite Hsplit in Hall. apply Forall_app in Hall.
  destruct Hall as [Hbefore Hrest]. inversion Hrest as [|? ? Hb _]; subst.
  assert (Hstart : well_shaped num_input hidden1_size num_classes (started w))
    by exact Hw.
  destruct (@train_epoch_run loss_func autograd num_input hidden1_size
              num_classes Hengine Hloss before (started w) [] Hstart Hbefore)
    as (_ & _ & _ & Hwk & _).
  destruct (@after_batch_run loss_func autograd num_input hidden1_size
              num_classes Hengine Hloss b _ Hwk Hb)
    as (_ & _ & _ & _ & _ & Hg).
  exact Hg.
Qed.

Lemma training_iteration_order_witness :
  exists (w' : world) (train_losses : list R),
    train_ANN_model Examples.loss_func Examples.engine 2 Examples.loader
      Examples.start
    = (w', Ok train_losses) /\
    calls w'
    = [ZeroGrad; Forward; Loss; Backward; Step;
       ZeroGrad; Forward; Loss; Backward; Step].
Proof.
  destruct (@training_iteration_order Examples.loss_func Examples.engine
              3 2 2 2%Z Examples.loader Examples.start
              example_engine_shape example_loss_defined
              example_start_shaped (@example_loader_ok 2%Z))
    as (w' & losses & Hrun & Hcalls & _).
  exists w', losses. split; [exact Hrun|exact Hcalls].
Defined.

(** C5, as stated, fails: in a run of one epoch over one batch the trace of
    calls starts with the gradient reset, before the forward pass and the
    loss, not after them. *)
Lemma gradient_reset_precedes_forward :
  calls (fst (train_ANN_model Examples.loss_func Examples.engine 1
                Examples.loader Examples.start))
  = [ZeroGrad; Forward; Loss; Backward; Step] /\
  calls (fst (train_ANN_model Examples.loss_func Examples.engine 1
                Examples.loader Examples.start))
  <> [Forward; Loss; ZeroGrad; Backward; Step].
Proof.
  destruct (@train_ANN_model_run Examples.loss_func Examples.engine 3 2 2
              example_engine_shape example_loss_defined 1%Z Examples.loader
              Examples.start example_start_shaped (@example_loader_ok 1%Z))
    as (losses & Hrun & _ & _ & Hcalls).
  rewrite Hrun. cbn [fst]. rewrite Hcalls.
  split; [reflexivity|discriminate].
Qed.

(** ** More on the forward pass *)

Section ForwardMore.

Local Open Scope R_scope.

Lemma linear_raises (l : Linear) (x : list (list R)) (e : exn) :
  linear l x = Raise e -> e = RuntimeError.
Proof.
  unfold linear. destruct (forallb _ x); congruence.
Qed.

Lemma forward_raises (m : MLP) (x : list (list R)) (e : exn) :
  forward m x = Raise e -> e = RuntimeError.
Proof.
  unfold forward. destruct (linear (hidden1 m) x) as [h|e'] eqn:E1; simpl.
  - apply linear_raises.
  - intros H. injection H as <-. exact (linear_raises _ _ E1).
Qed.

Lemma linear_app (l : Linear) (a b : list (list R)) :
  linear l (a ++ b)
  = (let? ya := linear l a in let? yb := linear l b in Ok (ya ++ yb)).
Proof.
  unfold linear. rewrite forallb_app.
  destruct (forallb _ a), (forallb _ b); simpl; try reflexivity.
  rewrite map_app. reflexivity.
Qed.

Lemma relu_app (a b : list (list R)) : relu (a ++ b) = relu a ++ relu b.
Proof. unfold relu. apply map_app. Qed.

Lemma linear_wrong_width (l : Linear) (x : list (list R)) :
  Exists (fun row => length row <> in_features l) x ->
  linear l x = Raise RuntimeError.
Proof.
  intros H. unfold linear.
  replace (forallb (fun row => (length row =? in_features l)%nat) x)
    with false; [reflexivity|].
  symmetry. apply not_true_is_false. intros Hall.
  rewrite forallb_forall in Hall. apply Exists_exists in H.
  destruct H as (row & Hin & Hne). apply Hne, Nat.eqb_eq, Hall, Hin.
Qed.

End ForwardMore.

(** X1. The scores of a batch are those of its parts: [forward] of two
    batches laid end to end is [forward] of the first followed by [forward]
    of the second, and raises when either does. *)
Theorem forward_app (m : MLP) (a b : list (list R)) :
  forward m (a ++ b)
  = (let? ya := forward m a in let? yb := forward m b in Ok (ya ++ yb)).
Proof.
  unfold forward. rewrite linear_app.
  destruct (linear (hidden1 m) a) as [ha|ea] eqn:Ea; cbn [rbind];
    [|reflexivity].
  destruct (linear (hidden1 m) b) as [hb|eb] eqn:Eb; cbn [rbind].
  - rewrite relu_app. apply linear_app.
  - apply linear_raises in Eb. subst eb.
    destruct (linear (output m) (relu ha)) as [ya|e] eqn:E;
      [reflexivity|].
    apply linear_raises in E. subst e. reflexivity.
Qed.

(** X2. A batch with a row that does not have [num_input] features is
    rejected: [forward] raises [RuntimeError], whatever the other rows. *)
Theorem forward_wrong_width (m : MLP) (num_input : nat) (x : list (list R))
  (Hin : in_features (hidden1 m) = num_input)
  (Hbad : Exists (fun row => length row <> num_input) x) :
  forward m x = Raise RuntimeError.
Proof.
  unfold forward. rewrite linear_wrong_width; [reflexivity|].
  rewrite Hin. exact Hbad.
Qed.

Lemma forward_wrong_width_witness :
  forward Examples.model [[1; 2; 3]; [1; 2]]%R = Raise RuntimeError.
Proof.
  apply (@forward_wrong_width Examples.model 3).
  - reflexivity.
  - apply Exists_cons_tl, Exists_cons_hd. simpl. lia.
Defined.

(** ** More on the evaluation loop *)

Section ArgmaxFacts.

Local Open Scope R_scope.

Lemma argmax_from_spec (x pre : list R) (best : R) (bi : nat) :
  (bi < length pre)%nat -> nth bi pre 0 = best ->
  (forall j, (j < length pre)%nat -> nth j pre 0 <= best) ->
  (forall j, (j < bi)%nat -> nth j pre 0 < best) ->
  first_max (pre ++ x) (argmax_from best bi (length pre) x).
Proof.
  revert pre best bi. induction x as [|v x IH]; intros pre best bi Hbi Hb Hle Hlt.
  - rewrite app_nil_r. cbn [argmax_from]. subst best.
    split; [exact Hbi|]. split; assumption.
  - cbn [argmax_from].
    replace (pre ++ v :: x) with ((pre ++ [v]) ++ x)
      by (rewrite <- app_assoc; reflexivity).
    replace (S (length pre)) with (length (pre ++ [v]))
      by (rewrite length_app; simpl; lia).
    assert (Hv : nth (length pre) (pre ++ [v]) 0 = v)
      by (rewrite app_nth2, Nat.sub_diag by lia; reflexivity).
    assert (Hold : forall j, (j < length pre)%nat ->
                     nth j (pre ++ [v]) 0 = nth j pre 0)
      by (intros j Hj; apply app_nth1; exact Hj).
    destruct (Rlt_dec best v) as [Hbv|Hbv].
    + apply IH.
      * rewrite length_app; simpl; lia.
      * exact Hv.
      * intros j Hj. rewrite length_app in Hj. simpl in Hj.
        destruct (Nat.eq_dec j (length pre)) as [->|Hne].
        -- rewrite Hv. lra.
        -- rewrite Hold by lia. specialize (Hle j ltac:(lia)). lra.
      * intros j Hj. rewrite Hold by lia.
        specialize (Hle j ltac:(lia)). lra.
    + apply IH.
      * rewrite length_app; simpl; lia.
      * rewrite Hold by lia. exact Hb.
      * intros j Hj. rewrite length_app in Hj. simpl in Hj.
        destruct (Nat.eq_dec j (length pre)) as [->|Hne].
        -- rewrite Hv. lra.
        -- rewrite Hold by lia. apply Hle. lia.
      * intros j Hj. rewrite Hold by lia. apply Hlt. exact Hj.
Qed.

Lemma argmax_nonempty (row : list R) :
  row <> [] -> exists i, argmax row = Ok i /\ first_max row i.
Proof.
  destruct row as [|v x]; [congruence|intros _].
  eexists. split; [reflexivity|].
  apply (argmax_from_spec x [v] (bi := 0)); simpl;
    [lia|reflexivity| |intros j Hj; lia].
  intros [|j] Hj; simpl; [lra|lia].
Qed.

Lemma forward_app_ok (m : MLP) (a b ya yb : list (list R)) :
  forward m a = Ok ya -> forward m b = Ok yb ->
  forward m (a ++ b) = Ok (ya ++ yb).
Proof.
  unfold forward. intros Ha Hb. rewrite linear_app.
  destruct (linear (hidden1 m) a) as [ha|]; [|discriminate].
  destruct (linear (hidden1 m) b) as [hb|]; [|discriminate].
  cbn [rbind] in *. rewrite relu_app, linear_app, Ha, Hb. reflexivity.
Qed.

End ArgmaxFacts.

(** X3. On a non-empty row of scores [argmax] returns an index of the row
    whose score no other entry exceeds, and no earlier entry reaches; on an
    empty row it raises [IndexError]. *)
Theorem argmax_first_max (row : list R) :
  (row <> [] -> exists i, argmax row = Ok i /\ first_max row i) /\
  (row = [] -> argmax row = Raise IndexError).
Proof.
  split; [|intros ->; reflexivity].
  destruct row as [|v x]; [congruence|intros _].
  eexists. split; [reflexivity|].
  apply (argmax_from_spec x [v] (bi := 0)); simpl.
  - lia.
  - reflexivity.
  - intros [|j] Hj; simpl; [lra|lia].
  - intros j Hj. lia.
Qed.

Lemma argmax_first_max_witness :
  exists i, argmax [1; 3; 3; 2]%R = Ok i /\ first_max [1; 3; 3; 2]%R i.
Proof.
  apply (proj1 (argmax_first_max [1; 3; 3; 2]%R)). discriminate.
Defined.

(** Ties go to the first maximal entry. *)
Example argmax_example : argmax [1; 3; 3; 2]%R = Ok 1.
Proof.
  cbn [argmax argmax_from].
  destruct (Rlt_dec 1 3) as [_|H]; [|exfalso; apply H; lra].
  destruct (Rlt_dec 3 3) as [H|_]; [lra|].
  destruct (Rlt_dec 3 2) as [H|_]; [lra|]. reflexivity.
Qed.

Section EvaluationRun.

Variables num_input hidden1_size num_classes : nat.
Hypothesis classes : 0 < num_classes.

Lemma argmax_rows_ok (out : list (list R)) :
  Forall (fun row => length row = num_classes) out ->
  exists preds,
    argmax_rows out = Ok preds /\
    length preds = length out /\
    Forall (fun p => p < num_classes) preds /\
    Forall2 first_max out preds.
Proof.
  induction 1 as [|row out Hrow _ IH].
  - exists []. repeat split; constructor.
  - destruct IH as (preds & Hp & Hlen & Hlt & Hmax).
    assert (Hne : row <> []) by (intros ->; simpl in Hrow; lia).
    destruct (argmax_nonempty Hne) as (i & Hi & Hfirst).
    exists (i :: preds). cbn [argmax_rows]. rewrite Hi, Hp. cbn [rbind].
    split; [reflexivity|]. split; [simpl; congruence|].
    split; constructor; auto.
    destruct Hfirst as [Hb _]. lia.
Qed.

Lemma argmax_rows_app (a b : list (list R)) (pa pb : list nat) :
  argmax_rows a = Ok pa -> argmax_rows b = Ok pb ->
  argmax_rows (a ++ b) = Ok (pa ++ pb).
Proof.
  revert pa. induction a as [|row a IH]; intros pa Ha Hb.
  - injection Ha as <-. exact Hb.
  - cbn [argmax_rows app] in *.
    destruct (argmax row) as [i|]; [|discriminate]. cbn [rbind] in *.
    destruct (argmax_rows a) as [js|]; [|discriminate]. cbn [rbind] in *.
    injection Ha as <-. rewrite (IH js eq_refl Hb). reflexivity.
Qed.

(** The loop on a run of acceptable batches, then on whatever follows. *)
Lemma test_loop_run (bs rest : list batch) (p t : list nat)
  (n : option nat) (w : world) :
  MLP_shape (ANN_model w) num_input hidden1_size num_classes ->
  Forall (test_batch_ok num_input) bs ->
  exists preds,
    (let? out := forward (ANN_model w) (all_features bs) in argmax_rows out)
    = Ok preds /\
    length preds = length (all_labels bs) /\
    Forall (fun c => c < num_classes) preds /\
    test_loop (bs ++ rest) p t n w
    = test_loop rest (p ++ preds) (t ++ all_labels bs)
        (last_num_samples bs n)
        (mkWorld (ANN_model w) (optimizer w)
           (calls w ++ repeat Forward (length bs))).
Proof.
  intros Hm Hbs. revert p t n w Hm.
  induction Hbs as [|[x y] bs (Hx & Hlen & Hne) _ IH]; intros p t n w Hm.
  - exists []. cbn. rewrite !app_nil_r. repeat split; try constructor.
    destruct w; reflexivity.
  - cbn [fst snd] in *.
    destruct (forward_defined Hm Hx) as (out & Hout & Hshape).
    destruct (argmax_rows_ok (proj2 Hshape))
      as (p1 & Hp1 & Hl1 & Hlt1 & _).
    assert (Hl1' : length p1 = length y)
      by (rewrite Hl1, (proj1 Hshape); symmetry; exact Hlen).
    set (w1 := mkWorld (ANN_model w) (optimizer w) (calls w ++ [Forward])).
    destruct (IH (p ++ p1) (t ++ y) (Some (length y)) w1 Hm)
      as (p2 & Hp2 & Hl2 & Hlt2 & Hrun).
    unfold w1 in Hp2. cbn [ANN_model] in Hp2.
    destruct (forward (ANN_model w) (all_features bs)) as [out2|] eqn:Hout2;
      cbn [rbind] in Hp2; [|discriminate].
    exists (p1 ++ p2). split; [|split; [|split]].
    + unfold all_features. cbn [map concat fst].
      fold (all_features bs). rewrite (@forward_app_ok _ _ _ _ _ Hout Hout2).
      cbn [rbind]. apply argmax_rows_app; assumption.
    + unfold all_labels. cbn [map concat snd]. fold (all_labels bs).
      rewrite !length_app. congruence.
    + apply Forall_app. split; assumption.
    + cbn [app test_loop].
      unfold bind at 1. unfold call_model, bind, record.
      cbn [ANN_model optimizer calls]. rewrite Hout.
      unfold lift. rewrite Hp1. cbv beta iota.
      unfold eq_sum. rewrite Hl1', Nat.eqb_refl. cbv beta iota.
      assert (Hpos : length y <> 0).
      { rewrite Hlen. destruct x; [congruence|simpl; lia]. }
      destruct (length y) as [|k] eqn:Hk; [congruence|].
      cbn [py_div]. cbv beta iota. fold w1. rewrite Hrun.
      unfold w1. cbn [ANN_model optimizer calls last_num_samples fold_left
                       length repeat snd].
      unfold all_labels. cbn [map concat snd]. fold (all_labels bs).
      rewrite <- !app_assoc. rewrite ?Hk. reflexivity.
Qed.

End EvaluationRun.

Lemma test_ANN_model_run (num_input hidden1_size num_classes : nat)
  (testing_data : list batch) (w : world) :
  0 < num_classes ->
  MLP_shape (ANN_model w) num_input hidden1_size num_classes ->
  Forall (test_batch_ok num_input) testing_data ->
  testing_data <> [] ->
  exists predicted_labels : list nat,
    test_ANN_model testing_data w
    = (mkWorld (set_training false (ANN_model w)) (optimizer w)
         (calls w ++ repeat Forward (length testing_data)),
       Ok (predicted_labels, all_labels testing_data)) /\
    (let? out := forward (ANN_model w) (all_features testing_data) in
     argmax_rows out) = Ok predicted_labels.
Proof.
  intros Hclasses Hm Hok Hne.
  set (w0 := mkWorld (set_training false (ANN_model w)) (optimizer w)
               (calls w)).
  destruct (@test_loop_run num_input hidden1_size num_classes Hclasses
              testing_data [] [] [] None w0 Hm Hok)
    as (preds & Hp & _ & _ & Hrun).
  exists preds. split; [|exact Hp].
  unfold test_ANN_model. unfold bind at 1. unfold set_model. fold w0.
  rewrite app_nil_r in Hrun. unfold bind. rewrite Hrun.
  cbn [test_loop ret app].
  assert (Hlast : exists k, last_num_samples testing_data None = Some k).
  { unfold last_num_samples.
    destruct testing_data as [|b bs]; [congruence|]. cbn [fold_left].
    generalize (length (snd b)) as k. clear.
    induction bs as [|c bs IH]; intros k; cbn [fold_left]; eauto. }
  destruct Hlast as (k & ->). reflexivity.
Qed.

Lemma all_features_shape (num_input : nat) (batches : list batch) :
  Forall (test_batch_ok num_input) batches ->
  Forall (fun row => length row = num_input) (all_features batches) /\
  length (all_labels batches) = length (all_features batches).
Proof.
  unfold all_features, all_labels.
  induction 1 as [|[x y] bs (Hx & Hlen & _) _ [IH1 IH2]]; cbn.
  - split; [constructor|reflexivity].
  - cbn in Hx, Hlen. split; [apply Forall_app; split; assumption|].
    rewrite !length_app. congruence.
Qed.

(** X4. From a model of the constructed shapes and at least one batch, all
    acceptable, the evaluation loop returns: the true labels are the labels
    of the batches in order; the predicted labels are, sample by sample, the
    first maximal score of one forward pass over the whole test set,
    whatever the split into batches; there is one per sample and each is a
    class index. *)
Theorem test_ANN_model_returns (num_input hidden1_size num_classes : nat)
  (testing_data : list batch) (w : world)
  (Hclasses : 0 < num_classes)
  (Hm : MLP_shape (ANN_model w) num_input hidden1_size num_classes)
  (Hok : Forall (test_batch_ok num_input) testing_data)
  (Hne : testing_data <> []) :
  exists (out : list (list R)) (predicted_labels : list nat),
    snd (test_ANN_model testing_data w)
    = Ok (predicted_labels, all_labels testing_data) /\
    forward (ANN_model w) (all_features testing_data) = Ok out /\
    Forall2 first_max out predicted_labels /\
    length predicted_labels = length (all_labels testing_data) /\
    Forall (fun c => c < num_classes) predicted_labels.
Proof.
  destruct (@test_ANN_model_run num_input hidden1_size num_classes
              testing_data w Hclasses Hm Hok Hne) as (preds & Hrun & Hp).
  destruct (@all_features_shape num_input testing_data Hok) as [Hrows Hlen].
  destruct (forward_defined Hm Hrows) as (out & Hout & Hshape).
  rewrite Hout in Hp. cbn [rbind] in Hp.
  destruct (@argmax_rows_ok num_classes Hclasses out (proj2 Hshape))
    as (preds' & Hp' & Hl & Hlt & Hmax).
  assert (preds' = preds) by congruence. subst preds'.
  exists out, preds. rewrite Hrun. cbn [snd].
  split; [reflexivity|]. split; [exact Hout|]. split; [exact Hmax|].
  split; [|exact Hlt].
  rewrite Hl, (proj1 Hshape). symmetry. exact Hlen.
Qed.

Lemma test_ANN_model_returns_witness :
  exists predicted_labels : list nat,
    snd (test_ANN_model [(Examples.X, [0])] Examples.start)
    = Ok (predicted_labels, [0]) /\
    length predicted_labels = 1.
Proof.
  destruct (@test_ANN_model_returns 3 2 2 [(Examples.X, [0])] Examples.start)
    as (out & p & Hrun & _ & _ & Hlen & _).
  - lia.
  - exact example_model_shape.
  - repeat constructor. discriminate.
  - discriminate.
  - exists p. split; assumption.
Defined.

(** X5. Among loaders of acceptable batches, the evaluation loop raises
    [UnboundLocalError] exactly on the one that yields no batch: its
    summary reads [num_samples], which only the loop body binds. The model
    has then been switched to evaluation mode and nothing else called. *)
Theorem test_ANN_model_empty_loader (num_input hidden1_size num_classes : nat)
  (testing_data : list batch) (w : world)
  (Hclasses : 0 < num_classes)
  (Hm : MLP_shape (ANN_model w) num_input hidden1_size num_classes)
  (Hok : Forall (test_batch_ok num_input) testing_data) :
  (testing_data = [] ->
   test_ANN_model testing_data w
   = (mkWorld (set_training false (ANN_model w)) (optimizer w) (calls w),
      Raise UnboundLocalError)) /\
  (snd (test_ANN_model testing_data w) = Raise UnboundLocalError ->
   testing_data = []).
Proof.
  split; [intros ->; reflexivity|].
  intros Hraise. destruct testing_data as [|b bs]; [reflexivity|].
  destruct (@test_ANN_model_run num_input hidden1_size num_classes
              (b :: bs) w Hclasses Hm Hok) as (preds & Hrun & _);
    [discriminate|].
  rewrite Hrun in Hraise. discriminate.
Qed.

Lemma test_ANN_model_empty_loader_witness :
  snd (test_ANN_model [] Examples.start) = Raise UnboundLocalError.
Proof.
  destruct (@test_ANN_model_empty_loader 3 2 2 [] Examples.start)
    as [Hempty _].
  - lia.
  - exact example_model_shape.
  - constructor.
  - rewrite (Hempty eq_refl). reflexivity.
Defined.

(** X6. A batch without samples stops the evaluation with
    [ZeroDivisionError] (the accuracy of the batch divides by its size),
    also after any number of acceptable batches. *)
Theorem test_ANN_model_empty_batch (num_input hidden1_size num_classes : nat)
  (before rest : list batch) (w : world)
  (Hclasses : 0 < num_classes)
  (Hm : MLP_shape (ANN_model w) num_input hidden1_size num_classes)
  (Hok : Forall (test_batch_ok num_input) before) :
  snd (test_ANN_model (before ++ ([], []) :: rest) w)
  = Raise ZeroDivisionError.
Proof.
  set (w0 := mkWorld (set_training false (ANN_model w)) (optimizer w)
               (calls w)).
  destruct (@test_loop_run num_input hidden1_size num_classes Hclasses
              before (([], []) :: rest) [] [] None w0 Hm Hok)
    as (preds & _ & _ & _ & Hrun).
  unfold test_ANN_model. unfold bind at 1. unfold set_model. fold w0.
  unfold bind at 1. rewrite Hrun. reflexivity.
Qed.

Lemma test_ANN_model_empty_batch_witness :
  snd (test_ANN_model ([(Examples.X, [0])] ++ [([], [])]) Examples.start)
  = Raise ZeroDivisionError.
Proof.
  apply (@test_ANN_model_empty_batch 3 2 2).
  - lia.
  - exact example_model_shape.
  - repeat constructor. discriminate.
Defined.

(** ** More on the training loop *)

Section TrainingMore.

Variable loss_func : list (list R) -> list nat -> result R.
Variable autograd : MLP -> list (list R) -> list nat -> Gradients.

Lemma train_epoch_app (a b : list batch) (ls : list R) (w : world) :
  train_epoch loss_func autograd (a ++ b) ls w
  = bind (train_epoch loss_func autograd a ls)
      (train_epoch loss_func autograd b) w.
Proof.
  revert ls w. induction a as [|x a IH]; intros ls w.
  - reflexivity.
  - cbn [app train_epoch]. unfold bind.
    destruct (train_batch loss_func autograd x ls w) as [w' [l|e]];
      [|reflexivity].
    rewrite IH. reflexivity.
Qed.

Lemma train_epochs_flat (training_data : nat -> list batch)
  (remaining epoch_cnt : nat) (ls : list R) (w : world) :
  train_epochs loss_func autograd training_data remaining epoch_cnt ls w
  = train_epoch loss_func autograd
      (concat (map training_data (seq epoch_cnt remaining))) ls w.
Proof.
  revert epoch_cnt ls w. induction remaining as [|k IH]; intros e0 ls w.
  - reflexivity.
  - cbn [train_epochs seq map concat]. rewrite train_epoch_app.
    unfold bind.
    destruct (train_epoch loss_func autograd (training_data e0) ls w)
      as [w' [l|e]]; [apply IH|reflexivity].
Qed.

Lemma sgd_step_keeps (m : MLP) (o : SGD) :
  training (fst (sgd_step m o)) = training m /\
  lr (snd (sgd_step m o)) = lr o /\
  momentum (snd (sgd_step m o)) = momentum o.
Proof.
  unfold sgd_step.
  destruct (sgd_param (lr o) (momentum o) (weight (hidden1 m)) _).
  destruct (sgd_param (lr o) (momentum o) (bias (hidden1 m)) _).
  destruct (sgd_param (lr o) (momentum o) (weight (output m)) _).
  destruct (sgd_param (lr o) (momentum o) (bias (output m)) _).
  repeat split.
Qed.

(** One iteration on a batch with a row of the wrong width. *)
Lemma train_batch_wrong_width (num_input : nat) (b : batch) (ls : list R)
  (w : world) :
  in_features (hidden1 (ANN_model w)) = num_input ->
  Exists (fun row => length row <> num_input) (fst b) ->
  train_batch loss_func autograd b ls w
  = (mkWorld (map_params clear_grad clear_grad (ANN_model w)) (optimizer w)
       (calls w ++ [ZeroGrad; Forward]),
     Raise RuntimeError).
Proof.
  destruct b as [x y]. intros Hin Hbad. cbn [fst] in Hbad.
  unfold train_batch, zero_grad, call_model.
  unfold bind, record, set_model. cbn [ANN_model optimizer calls].
  rewrite forward_clear_grad. unfold forward.
  rewrite linear_wrong_width by (rewrite Hin; exact Hbad).
  cbn [rbind]. rewrite <- app_assoc. reflexivity.
Qed.

End TrainingMore.

(** X7. The two nested loops are one pass over the batches in processing
    order: training for [num_epochs] epochs is the inner loop run once, from
    an empty loss list, over the batches of traversal 0, then those of
    traversal 1, and so on, with the same result, exception and objects. *)
Theorem train_ANN_model_single_pass
  (loss_func : list (list R) -> list nat -> result R)
  (autograd : MLP -> list (list R) -> list nat -> Gradients)
  (num_epochs : Z) (training_data : nat -> list batch) (w : world) :
  train_ANN_model loss_func autograd num_epochs training_data w
  = train_epoch loss_func autograd (processed training_data num_epochs) []
      (started w).
Proof.
  unfold train_ANN_model, processed. unfold bind, set_model.
  fold (started w). apply train_epochs_flat.
Qed.

(** X8. With [num_epochs <= 0] the loop body never runs: no call is made,
    the loss list is empty, and only the mode flag of the model is set. *)
Theorem train_ANN_model_no_epoch
  (loss_func : list (list R) -> list nat -> result R)
  (autograd : MLP -> list (list R) -> list nat -> Gradients)
  (num_epochs : Z) (training_data : nat -> list batch) (w : world)
  (Hepochs : (num_epochs <= 0)%Z) :
  train_ANN_model loss_func autograd num_epochs training_data w
  = (mkWorld (set_training true (ANN_model w)) (optimizer w) (calls w),
     Ok []).
Proof.
  unfold train_ANN_model, bind, set_model.
  replace (Z.to_nat num_epochs) with 0 by lia. reflexivity.
Qed.

Lemma train_ANN_model_no_epoch_witness :
  train_ANN_model Examples.loss_func Examples.engine (-3) Examples.loader
    Examples.start
  = (mkWorld (set_training true Examples.model) MLP_optimizer [], Ok []).
Proof.
  apply (@train_ANN_model_no_epoch Examples.loss_func Examples.engine (-3)).
  lia.
Defined.

(** X9. A batch with a row of the wrong width aborts the training with
    [RuntimeError], and the losses collected so far are lost with it. Of the
    failing iteration only the gradient reset has taken effect: the
    parameters and the optimizer are those the preceding batches left, and
    every gradient slot is empty. *)
Theorem train_ANN_model_wrong_width
  (loss_func : list (list R) -> list nat -> result R)
  (autograd : MLP -> list (list R) -> list nat -> Gradients)
  (num_input hidden1_size num_classes : nat)
  (num_epochs : Z) (training_data : nat -> list batch) (w : world)
  (before : list batch) (b : batch) (rest : list batch)
  (Hengine : forall m x y,
      MLP_shape m num_input hidden1_size num_classes ->
      Gradients_shape (autograd m x y) num_input hidden1_size num_classes)
  (Hloss : forall out y,
      has_shape out (length y) num_classes ->
      Forall (fun label => label < num_classes) y ->
      exists l, loss_func out y = Ok l)
  (Hw : well_shaped num_input hidden1_size num_classes w)
  (Hsplit : processed training_data num_epochs = before ++ b :: rest)
  (Hbefore : Forall (batch_ok num_input num_classes) before)
  (Hbad : Exists (fun row => length row <> num_input) (fst b)) :
  let wk := fold_left (after_batch loss_func autograd) before (started w) in
  train_ANN_model loss_func autograd num_epochs training_data w
  = (mkWorld (map_params clear_grad clear_grad (ANN_model wk)) (optimizer wk)
       (calls wk ++ [ZeroGrad; Forward]),
     Raise RuntimeError).
Proof.
  intros wk.
  unfold train_ANN_model, bind, set_model. fold (started w).
  rewrite train_epochs_flat. fold (processed training_data num_epochs).
  rewrite Hsplit, train_epoch_app.
  assert (Hstart : well_shaped num_input hidden1_size num_classes (started w))
    by exact Hw.
  destruct (@train_epoch_run loss_func autograd num_input hidden1_size
              num_classes Hengine Hloss before (started w) [] Hstart Hbefore)
    as (ls & Hrun & _ & Hwk & _).
  fold wk in Hrun, Hwk.
  unfold bind at 1. rewrite Hrun. cbn [train_epoch]. unfold bind.
  rewrite (@train_batch_wrong_width loss_func autograd num_input b _ wk);
    [reflexivity| |exact Hbad].
  apply Hwk.
Qed.

Lemma train_ANN_model_wrong_width_witness :
  snd (train_ANN_model Examples.loss_func Examples.engine 1
         (fun _ => [(Examples.X, Examples.labels);
                    ([[1; 2]]%R, [0])])
         Examples.start)
  = Raise RuntimeError.
Proof.
  rewrite (@train_ANN_model_wrong_width Examples.loss_func Examples.engine
             3 2 2 1%Z _ Examples.start
             [(Examples.X, Examples.labels)] ([[1; 2]]%R, [0]) []
             example_engine_shape example_loss_defined example_start_shaped).
  - reflexivity.
  - reflexivity.
  - repeat constructor.
  - apply Exists_cons_hd. simpl. lia.
Defined.

Section TrainingInvariants.

Variable loss_func : list (list R) -> list nat -> result R.
Variable autograd : MLP -> list (list R) -> list nat -> Gradients.
Variables num_input hidden1_size num_classes : nat.

Hypothesis autograd_shape :
  forall m x y,
    MLP_shape m num_input hidden1_size num_classes ->
    Gradients_shape (autograd m x y) num_input hidden1_size num_classes.
Hypothesis loss_defined :
  forall out y,
    has_shape out (length y) num_classes ->
    Forall (fun label => label < num_classes) y ->
    exists l, loss_func out y = Ok l.

Local Abbreviation shaped := (well_shaped num_input hidden1_size num_classes).
Local Abbreviation ok := (batch_ok num_input num_classes).
Local Abbreviation next := (after_batch loss_func autograd).

Lemma after_batch_keeps (b : batch) (w : world) :
  shaped w -> ok b ->
  shaped (next w b) /\
  training (ANN_model (next w b)) = training (ANN_model w) /\
  lr (optimizer (next w b)) = lr (optimizer w) /\
  momentum (optimizer (next w b)) = momentum (optimizer w).
Proof.
  intros Hw Hb.
  destruct (@train_batch_run loss_func autograd num_input hidden1_size
              num_classes autograd_shape loss_defined b w Hw Hb)
    as (l & w' & _ & Hrun & Hw' & _ & _ & Hstep).
  assert (Hnext : next w b = w').
  { unfold after_batch. rewrite (Hrun []). reflexivity. }
  rewrite Hnext. split; [exact Hw'|].
  pose proof (f_equal fst Hstep) as Hm. pose proof (f_equal snd Hstep) as Ho.
  cbn [fst snd] in Hm, Ho. rewrite Hm, Ho.
  match goal with
  | |- context [sgd_step ?m ?o] =>
      destruct (sgd_step_keeps m o) as (H1 & H2 & H3)
  end.
  rewrite H1, H2, H3. repeat split.
Qed.

Lemma fold_after_batch_keeps (bs : list batch) (w : world) :
  shaped w -> Forall ok bs ->
  shaped (fold_left next bs w) /\
  training (ANN_model (fold_left next bs w)) = training (ANN_model w) /\
  lr (optimizer (fold_left next bs w)) = lr (optimizer w) /\
  momentum (optimizer (fold_left next bs w)) = momentum (optimizer w).
Proof.
  intros Hw Hbs. revert w Hw.
  induction Hbs as [|b bs Hb _ IH]; intros w Hw; cbn [fold_left].
  - split; [exact Hw|]. repeat split.
  - destruct (after_batch_keeps Hw Hb) as (Hw' & Ht & Hl & Hmo).
    destruct (IH _ Hw') as (Hs & Ht' & Hl' & Hmo').
    split; [exact Hs|]. split; [congruence|]. split; congruence.
Qed.

End TrainingInvariants.

(** X10. Training keeps what it does not mean to change: after the loop has
    returned, the model is in training mode, its four parameter tensors and
    the momentum buffers still have the constructed shapes, and the learning
    rate and the momentum of the optimizer are those it was built with. *)
Theorem train_ANN_model_keeps
  (loss_func : list (list R) -> list nat -> result R)
  (autograd : MLP -> list (list R) -> list nat -> Gradients)
  (num_input hidden1_size num_classes : nat)
  (num_epochs : Z) (training_data : nat -> list batch) (w : world)
  (Hengine : forall m x y,
      MLP_shape m num_input hidden1_size num_classes ->
      Gradients_shape (autograd m x y) num_input hidden1_size num_classes)
  (Hloss : forall out y,
      has_shape out (length y) num_classes ->
      Forall (fun label => label < num_classes) y ->
      exists l, loss_func out y = Ok l)
  (Hw : well_shaped num_input hidden1_size num_classes w)
  (Hok : forall e, (Z.of_nat e < num_epochs)%Z ->
                   Forall (batch_ok num_input num_classes) (training_data e)) :
  exists (w' : world) (train_losses : list R),
    train_ANN_model loss_func autograd num_epochs training_data w
    = (w', Ok train_losses) /\
    training (ANN_model w') = true /\
    MLP_shape (ANN_model w') num_input hidden1_size num_classes /\
    Buffers_shape (state (optimizer w')) num_input hidden1_size num_classes /\
    lr (optimizer w') = lr (optimizer w) /\
    momentum (optimizer w') = momentum (optimizer w).
Proof.
  destruct (@train_ANN_model_run loss_func autograd num_input hidden1_size
              num_classes Hengine Hloss num_epochs training_data w Hw Hok)
    as (losses & Hrun & _ & _ & _).
  assert (Hstart : well_shaped num_input hidden1_size num_classes (started w))
    by exact Hw.
  destruct (@fold_after_batch_keeps loss_func autograd num_input hidden1_size
              num_classes Hengine Hloss (processed training_data num_epochs)
              (started w) Hstart
              (@processed_ok num_input num_classes training_data num_epochs
                 Hok))
    as ((Hm & Hb) & Ht & Hl & Hmo).
  eexists. exists losses. split; [exact Hrun|].
  split; [exact Ht|]. split; [exact Hm|]. split; [exact Hb|].
  split; [exact Hl|exact Hmo].
Qed.

Lemma train_ANN_model_keeps_witness :
  exists (w' : world) (train_losses : list R),
    train_ANN_model Examples.loss_func Examples.engine 2 Examples.loader
      Examples.start
    = (w', Ok train_losses) /\
    training (ANN_model w') = true /\
    lr (optimizer w') = alpha /\ momentum (optimizer w') = gamma.
Proof.
  destruct (@train_ANN_model_keeps Examples.loss_func Examples.engine
              3 2 2 2%Z Examples.loader Examples.start
              example_engine_shape example_loss_defined
              example_start_shaped (@example_loader_ok 2%Z))
    as (w' & losses & Hrun & Ht & _ & _ & Hl & Hmo).
  exists w', losses. repeat split; assumption.
Defined.

(** X11. The script's two calls compose: when training returns, evaluating
    the trained model on at least one acceptable test batch returns too,
    with the test labels in order and one predicted class index per test
    sample, and leaves the trained parameters and the optimizer as training
    left them. *)
Theorem train_then_test
  (loss_func : list (list R) -> list nat -> result R)
  (autograd : MLP -> list (list R) -> list nat -> Gradients)
  (num_input hidden1_size num_classes : nat)
  (num_epochs : Z) (training_data : nat -> list batch)
  (testing_data : list batch) (w : world)
  (Hengine : forall m x y,
      MLP_shape m num_input hidden1_size num_classes ->
      Gradients_shape (autograd m x y) num_input hidden1_size num_classes)
  (Hloss : forall out y,
      has_shape out (length y) num_classes ->
      Forall (fun label => label < num_classes) y ->
      exists l, loss_func out y = Ok l)
  (Hclasses : 0 < num_classes)
  (Hw : well_shaped num_input hidden1_size num_classes w)
  (Hok : forall e, (Z.of_nat e < num_epochs)%Z ->
                   Forall (batch_ok num_input num_classes) (training_data e))
  (Htest : Forall (test_batch_ok num_input) testing_data)
  (Hne : testing_data <> []) :
  exists (w' : world) (train_losses : list R) (predicted_labels : list nat),
    train_ANN_model loss_func autograd num_epochs training_data w
    = (w', Ok train_losses) /\
    snd (test_ANN_model testing_data w')
    = Ok (predicted_labels, all_labels testing_data) /\
    length predicted_labels = length (all_labels testing_data) /\
    parameters (ANN_model (fst (test_ANN_model testing_data w')))
    = parameters (ANN_model w') /\
    optimizer (fst (test_ANN_model testing_data w')) = optimizer w'.
Proof.
  destruct (@train_ANN_model_run loss_func autograd num_input hidden1_size
              num_classes Hengine Hloss num_epochs training_data w Hw Hok)
    as (losses & Hrun & _ & Hshaped & _).
  destruct (@test_ANN_model_run num_input hidden1_size num_classes
              testing_data _ Hclasses (proj1 Hshaped) Htest Hne)
    as (preds & Htestrun & Hp).
  destruct (@all_features_shape num_input testing_data Htest)
    as [Hrows Hlen].
  destruct (@forward_defined _ num_input hidden1_size num_classes _
              (proj1 Hshaped) Hrows) as (out & Hout & Hshape).
  rewrite Hout in Hp. cbn [rbind] in Hp.
  destruct (@argmax_rows_ok num_classes Hclasses out (proj2 Hshape))
    as (preds' & Hp' & Hl & _ & _).
  assert (preds' = preds) by congruence. subst preds'.
  eexists. exists losses, preds. split; [exact Hrun|].
  rewrite Htestrun. cbn [fst snd ANN_model optimizer].
  split; [reflexivity|]. split; [|split; reflexivity].
  rewrite Hl, (proj1 Hshape). symmetry. exact Hlen.
Qed.

Lemma train_then_test_witness :
  exists (w' : world) (train_losses : list R) (predicted_labels : list nat),
    train_ANN_model Examples.loss_func Examples.engine 2 Examples.loader
      Examples.start
    = (w', Ok train_losses) /\
    snd (test_ANN_model [(Examples.X, [0])] w')
    = Ok (predicted_labels, [0]).
Proof.
  destruct (@train_then_test Examples.loss_func Examples.engine
              3 2 2 2%Z Examples.loader [(Examples.X, [0])] Examples.start
              example_engine_shape example_loss_defined ltac:(lia)
              example_start_shaped (@example_loader_ok 2%Z))
    as (w' & losses & preds & Hrun & Htest & _).
  - repeat constructor. discriminate.
  - discriminate.
  - exists w', losses, preds. split; assumption.
Defined.

(** ** More on the loss *)

Section LossMore.

Local Open Scope R_scope.

Lemma sum_exp_ge (x : list R) (j : nat) :
  (j < length x)%nat -> exp (nth j x 0) <= sum (map exp x).
Proof.
  revert j; induction x as [|v x IH]; intros [|j] Hj; simpl in Hj;
    try lia; unfold sum in *; simpl.
  - assert (H : 0 <= fold_right Rplus 0 (map exp x)).
    { clear. induction x as [|a x IH]; simpl; [lra|].
      pose proof (exp_pos a). lra. }
    lra.
  - specialize (IH j ltac:(lia)). pose proof (exp_pos v). lra.
Qed.

Lemma softmax_range (x : list R) (j : nat) :
  (j < length x)%nat -> 0 < Spec.softmax x j <= 1.
Proof.
  intros Hj. unfold Spec.softmax.
  assert (Hx : x <> []) by (intros ->; simpl in Hj; lia).
  pose proof (sum_exp_pos Hx) as HS.
  pose proof (sum_exp_ge x Hj) as Hge.
  pose proof (exp_pos (nth j x 0)) as He.
  split.
  - apply Rdiv_lt_0_compat; assumption.
  - apply Rmult_le_reg_r with (sum (map exp x)); [assumption|].
    unfold Rdiv. rewrite Rmult_assoc, Rinv_l by lra. lra.
Qed.

Lemma sample_loss_nonneg (w x : list R) (t : nat) :
  (t < length x)%nat -> 0 <= nth t w 0 -> 0 <= Spec.sample_loss w x t.
Proof.
  intros Ht Hw. unfold Spec.sample_loss.
  destruct (softmax_range x Ht) as [Hpos Hle].
  assert (Hln : ln (Spec.softmax x t) <= 0).
  { destruct (Req_dec (Spec.softmax x t) 1) as [->|Hne].
    - rewrite ln_1. lra.
    - rewrite <- ln_1. left. apply ln_increasing; lra. }
  apply Rmult_le_pos; lra.
Qed.

Lemma sum_nonneg (x : list R) : Forall (fun v => 0 <= v) x -> 0 <= sum x.
Proof.
  unfold sum. induction 1; simpl; lra.
Qed.

Lemma sum_pos (x : list R) : x <> [] -> Forall (fun v => 0 < v) x -> 0 < sum x.
Proof.
  intros Hne H. destruct H as [|v x Hv Hx]; [congruence|].
  unfold sum; simpl.
  assert (0 <= fold_right Rplus 0 x).
  { apply sum_nonneg. eapply Forall_impl; [|exact Hx].
    intros a Ha; simpl in Ha; lra. }
  lra.
Qed.

Lemma sample_losses_nonneg (w : list R) (scores : list (list R))
  (labels : list nat) :
  Forall (fun row => length row = length w) scores ->
  Forall (fun label => (label < length w)%nat) labels ->
  Forall (fun c => 0 <= c) w ->
  Forall (fun v => 0 <= v) (Spec.sample_losses w scores labels).
Proof.
  intros Hs. revert labels. unfold Spec.sample_losses.
  induction Hs as [|row scores Hrow _ IH]; intros [|t labels] Hl Hw;
    cbn [combine map]; try constructor.
  - inversion Hl; subst. cbn [fst snd].
    apply sample_loss_nonneg; [lia|].
    rewrite Forall_forall in Hw. apply Hw, nth_In. assumption.
  - inversion Hl; subst. apply IH; assumption.
Qed.

Lemma label_weights_pos (w : list R) (labels : list nat) :
  Forall (fun label => (label < length w)%nat) labels ->
  Forall (fun c => 0 < c) w ->
  Forall (fun v => 0 < v) (map (fun label => nth label w 0) labels).
Proof.
  intros Hl Hw. apply Forall_map. eapply Forall_impl; [|exact Hl].
  intros t Ht. cbn beta in *. rewrite Forall_forall in Hw.
  apply Hw, nth_In. exact Ht.
Qed.

Lemma nll_sums_out_of_range (w : list R) (input : list (list R))
  (target : list nat) :
  length input = length target ->
  Forall (fun row => length row = length w) input ->
  Exists (fun t => (length w <= t)%nat) target ->
  nll_sums w (combine input target) = Raise IndexError.
Proof.
  intros Hlen Hrows. revert target Hlen.
  induction Hrows as [|row input Hrow _ IH]; intros [|t target] Hlen Hex;
    simpl in Hlen; try lia.
  - inversion Hex.
  - cbn [combine nll_sums]. unfold nll_sample.
    rewrite Hrow, Nat.eqb_refl. cbn [negb].
    destruct (le_lt_dec (length w) t) as [Hout|Hin].
    + replace (nth_error row t) with (@None R)
        by (symmetry; apply nth_error_None; lia).
      reflexivity.
    + rewrite (nth_error_nth' row 0) by lia.
      rewrite (nth_error_nth' w 0) by lia. cbn [rbind].
      rewrite IH; [reflexivity|lia|].
      inversion Hex; subst; [lia|assumption].
Qed.

Lemma sum_map_const (c : R) (labels : list nat) :
  sum (map (fun _ => c) labels) = c * INR (length labels).
Proof.
  unfold sum. induction labels as [|t labels IH].
  - simpl. lra.
  - cbn [map fold_right length]. rewrite IH, S_INR. lra.
Qed.

Lemma sum_scale (c : R) (x : list R) :
  sum (map (Rmult c) x) = c * sum x.
Proof.
  unfold sum. induction x as [|v x IH]; simpl; [lra|]. rewrite IH. lra.
Qed.

Lemma nth_repeat_lt (c : R) (n t : nat) :
  (t < n)%nat -> nth t (repeat c n) 0 = c.
Proof.
  revert t; induction n as [|n IH]; intros [|t] Ht; simpl; try lia; auto.
  apply IH. lia.
Qed.

Lemma sample_losses_uniform (c : R) (C : nat) (scores : list (list R))
  (labels : list nat) :
  Forall (fun label => (label < C)%nat) labels ->
  Spec.sample_losses (repeat c C) scores labels
  = map (Rmult c) (Spec.sample_losses (repeat 1 C) scores labels).
Proof.
  unfold Spec.sample_losses. intros Hl. revert scores.
  induction Hl as [|t labels Ht _ IH]; intros [|row scores];
    cbn [combine map]; try reflexivity.
  rewrite IH. f_equal. cbn [fst snd]. unfold Spec.sample_loss.
  rewrite !nth_repeat_lt by exact Ht. lra.
Qed.

End LossMore.

(** X12. With positive class weights, on at least one sample of scores of
    shape [N, C] with labels in [0..C-1], the loss is defined and is not
    negative. *)
Theorem loss_nonnegative (N C : nat) (w : list R)
  (scores : list (list R)) (labels : list nat)
  (Hscores : has_shape scores N C)
  (Hlabels : length labels = N)
  (Hrange : Forall (fun label => label < C) labels)
  (Hw : length w = C)
  (Hpos : Forall (fun c => (0 < c)%R) w)
  (HN : 0 < N) :
  exists loss : R,
    CrossEntropyLoss w scores labels = Ok loss /\ (0 <= loss)%R.
Proof.
  destruct Hscores as [HN' HC]. subst C.
  eexists. split.
  - apply CrossEntropyLoss_closed_form; auto. congruence.
  - unfold Spec.weighted_mean_loss.
    apply Rmult_le_pos.
    + apply sum_nonneg. apply sample_losses_nonneg; auto.
      eapply Forall_impl; [|exact Hpos]. intros a Ha; simpl in Ha; lra.
    + left. apply Rinv_0_lt_compat. apply sum_pos.
      * destruct labels; [simpl in Hlabels; lia|discriminate].
      * apply label_weights_pos; assumption.
Qed.

Lemma loss_nonnegative_witness :
  exists loss : R,
    CrossEntropyLoss Examples.class_weights Examples.scores Examples.labels
    = Ok loss /\ (0 <= loss)%R.
Proof.
  apply (@loss_nonnegative 1 2).
  - split; [reflexivity|repeat constructor].
  - reflexivity.
  - repeat constructor.
  - reflexivity.
  - unfold Examples.class_weights. repeat constructor; lra.
  - lia.
Defined.

(** X13. When all [C] class weights are one positive number the weighting
    cancels: the loss is the arithmetic mean of the samples' negative
    log-probabilities. *)
Theorem loss_uniform_weights (N C : nat) (c : R)
  (scores : list (list R)) (labels : list nat)
  (Hscores : has_shape scores N C)
  (Hlabels : length labels = N)
  (Hrange : Forall (fun label => label < C) labels)
  (Hc : (0 < c)%R)
  (HN : 0 < N) :
  CrossEntropyLoss (repeat c C) scores labels
  = Ok (Spec.mean_loss (repeat 1%R C) scores labels).
Proof.
  destruct Hscores as [HN' HC].
  rewrite CrossEntropyLoss_closed_form;
    rewrite ?repeat_length; auto; [|congruence].
  f_equal. unfold Spec.weighted_mean_loss, Spec.mean_loss, Spec.mean.
  rewrite (sample_losses_uniform c scores Hrange), sum_scale.
  replace (map (fun label => nth label (repeat c C) 0%R) labels)
    with (map (fun _ : nat => c) labels).
  - rewrite sum_map_const.
    assert (Hlen : length (Spec.sample_losses (repeat 1%R C) scores labels)
                   = length labels).
    { unfold Spec.sample_losses. rewrite length_map, length_combine. lia. }
    rewrite Hlen.
    assert (HNR : (0 < INR (length labels))%R)
      by (apply lt_0_INR; lia).
    field. split; lra.
  - apply map_ext_in. intros t Ht. rewrite Forall_forall in Hrange.
    symmetry. apply nth_repeat_lt. apply Hrange, Ht.
Qed.

Lemma loss_uniform_weights_witness :
  CrossEntropyLoss (repeat 3%R 2) Examples.scores Examples.labels
  = Ok (Spec.mean_loss (repeat 1%R 2) Examples.scores Examples.labels).
Proof.
  apply (@loss_uniform_weights 1 2).
  - split; [reflexivity|repeat constructor].
  - reflexivity.
  - repeat constructor.
  - lra.
  - lia.
Defined.

(** X14. The loss rejects what it cannot index: scores and labels of
    different counts raise [ValueError] before anything else is looked at,
    and, the counts and widths being right, a label that is not a class
    index raises [IndexError]. *)
Theorem loss_rejects (w : list R) (scores : list (list R))
  (labels : list nat) :
  (length scores <> length labels ->
   CrossEntropyLoss w scores labels = Raise ValueError) /\
  (length scores = length labels ->
   Forall (fun row => length row = length w) scores ->
   Exists (fun label => length w <= label) labels ->
   CrossEntropyLoss w scores labels = Raise IndexError).
Proof.
  unfold CrossEntropyLoss, nll_loss. rewrite length_map. split.
  - intros Hne. apply Nat.eqb_neq in Hne. rewrite Hne. reflexivity.
  - intros Hlen Hrows Hex. rewrite Hlen, Nat.eqb_refl. cbn [negb].
    rewrite nll_sums_out_of_range; auto.
    + rewrite length_map. exact Hlen.
    + apply Forall_map. eapply Forall_impl; [|exact Hrows].
      intros row Hrow. cbn beta. rewrite log_softmax_length. exact Hrow.
Qed.

Lemma loss_rejects_witness :
  CrossEntropyLoss Examples.class_weights Examples.scores [0; 1]
  = Raise ValueError /\
  CrossEntropyLoss Examples.class_weights Examples.scores [2]
  = Raise IndexError.
Proof.
  split.
  - apply (proj1 (loss_rejects Examples.class_weights Examples.scores
                    [0; 1])). simpl. lia.
  - apply (proj2 (loss_rejects Examples.class_weights Examples.scores [2])).
    + reflexivity.
    + repeat constructor.
    + apply Exists_cons_hd. simpl. lia.
Defined.

(** ** More on the class weights *)

(** X15. With both classes present the two weights are positive, each
    class carries the same total weight [N/2] over its samples, [N] the
    number of training labels, and the class with fewer samples has the
    larger weight. *)
Theorem class_weights_balance (y_train : list nat)
  (H0 : In 0 y_train) (H1 : In 1 y_train) :
  exists q0 q1 : Q,
    weights y_train = Ok (Numpy.Finite q0, Numpy.Finite q1) /\
    (0 < q0)%Q /\ (0 < q1)%Q /\
    (q0 * (Z.of_nat (count_occ Nat.eq_dec y_train 0%nat) # 1)
     == Z.of_nat (length y_train) # 2)%Q /\
    (q1 * (Z.of_nat (count_occ Nat.eq_dec y_train 1%nat) # 1)
     == Z.of_nat (length y_train) # 2)%Q /\
    ((count_occ Nat.eq_dec y_train 0 <= count_occ Nat.eq_dec y_train 1)%nat
     -> (q1 <= q0)%Q).
Proof.
  pose proof (count_In_pos _ _ H0) as P0.
  pose proof (count_In_pos _ _ H1) as P1.
  assert (HN : (0 < Z.of_nat (length y_train))%Z).
  { destruct y_train; [contradiction|simpl; lia]. }
  exists (Z.of_nat (length y_train) # Z.to_pos (2 * count y_train 0))%Q,
         (Z.of_nat (length y_train) # Z.to_pos (2 * count y_train 1))%Q.
  split.
  - unfold weights.
    rewrite w0_eq by (intros ->; contradiction).
    rewrite w1_eq by (apply (list_max_ge_In _ _ H1)).
    cbn [rbind]. rewrite !true_divide_pos by lia. reflexivity.
  - unfold count in *.
    unfold Qlt, Qle, Qeq, Qmult. cbn [Qnum Qden].
    rewrite ?Pos2Z.inj_mul, !Z2Pos.id by lia.
    repeat split; try nia.
Qed.

Lemma class_weights_balance_witness :
  exists q0 q1 : Q,
    weights [0; 0; 0; 1] = Ok (Numpy.Finite q0, Numpy.Finite q1) /\
    (q0 * (3 # 1) == 4 # 2)%Q /\ (q1 * (1 # 1) == 4 # 2)%Q /\ (q1 <= q0 -> False)%Q.
Proof.
  destruct (@class_weights_balance [0; 0; 0; 1]) as
    (q0 & q1 & Hw & _ & _ & B0 & B1 & _); [simpl; auto|simpl; auto|].
  exists q0, q1. split; [exact Hw|]. split; [exact B0|]. split; [exact B1|].
  assert (Hv : weights [0; 0; 0; 1]
               = Ok (Numpy.Finite (4 # 6), Numpy.Finite (4 # 2)))
    by reflexivity.
  rewrite Hv in Hw. injection Hw as <- <-.
  unfold Qle. simpl. lia.
Defined.

(** ** More on the report *)

Section ReportFacts.

Lemma count_eq_le (a b : list nat) : count_eq a b <= length a.
Proof.
  unfold count_eq. revert b.
  induction a as [|x a IH]; intros [|y b]; simpl; try lia.
  specialize (IH b). destruct (x =? y); simpl; lia.
Qed.

Lemma count_eq_full (a b : list nat) :
  length a = length b -> (count_eq a b = length a <-> a = b).
Proof.
  unfold count_eq. revert b.
  induction a as [|x a IH]; intros [|y b] Hlen; simpl in *; try lia.
  - tauto.
  - pose proof (count_eq_le a b) as Hle. unfold count_eq in Hle.
    destruct (x =? y) eqn:E; simpl.
    + apply Nat.eqb_eq in E. subst y. specialize (IH b ltac:(lia)).
      split; intros H.
      * f_equal. apply IH. lia.
      * injection H as H. apply IH in H. lia.
    + apply Nat.eqb_neq in E. split; intros H; [lia|congruence].
Qed.

Lemma list_max_binary (l : list nat) :
  Forall (fun y => y <= 1) l -> In 1 l -> list_max l = 1.
Proof.
  intros Hle H1. apply Nat.le_antisymm.
  - apply list_max_le. exact Hle.
  - apply list_max_ge_In. exact H1.
Qed.

Lemma unique_labels_binary (y_true y_pred : list nat) :
  Forall (fun y => y <= 1) (y_true ++ y_pred) ->
  In 0 (y_true ++ y_pred) -> In 1 (y_true ++ y_pred) ->
  Metrics.unique_labels y_true y_pred = [0; 1].
Proof.
  intros Hle H0 H1. unfold Metrics.unique_labels.
  rewrite (list_max_binary Hle H1). cbn [seq filter].
  rewrite (proj2 (existsb_eqb_In 0 _) H0), (proj2 (existsb_eqb_In 1 _) H1).
  reflexivity.
Qed.

Lemma filter_seq_below (c start n : nat) :
  start + n <= c -> filter (fun k => k =? c) (seq start n) = [].
Proof.
  revert start. induction n as [|n IH]; intros start H; cbn [seq filter].
  - reflexivity.
  - replace (start =? c) with false
      by (symmetry; apply Nat.eqb_neq; lia).
    apply IH. lia.
Qed.

Lemma filter_seq_eqb (c : nat) :
  filter (fun k => k =? c) (seq 0 (S c)) = [c].
Proof.
  rewrite seq_S, filter_app. cbn [filter Nat.add]. rewrite Nat.eqb_refl.
  rewrite filter_seq_below by lia. reflexivity.
Qed.

Lemma existsb_single (c k : nat) (l : list nat) :
  l <> [] -> Forall (fun y => y = c) l ->
  existsb (Nat.eqb k) l = (k =? c).
Proof.
  intros Hne Hall. destruct (k =? c) eqn:E.
  - apply Nat.eqb_eq in E. subst k. apply existsb_eqb_In.
    destruct l as [|y l]; [congruence|]. inversion Hall; subst.
    left; reflexivity.
  - apply not_true_is_false. intros H. apply existsb_eqb_In in H.
    rewrite Forall_forall in Hall. apply Hall in H.
    apply Nat.eqb_neq in E. congruence.
Qed.

Lemma list_max_single (c : nat) (l : list nat) :
  l <> [] -> Forall (fun y => y = c) l -> list_max l = c.
Proof.
  intros Hne Hall. apply Nat.le_antisymm.
  - apply list_max_le. eapply Forall_impl; [|exact Hall].
    intros a ->. apply Nat.le_refl.
  - apply list_max_ge_In. destruct l as [|y l]; [congruence|].
    inversion Hall; subst. left; reflexivity.
Qed.

Lemma unique_labels_single (c : nat) (y_true y_pred : list nat) :
  y_true <> [] ->
  Forall (fun y => y = c) y_true -> Forall (fun y => y = c) y_pred ->
  Metrics.unique_labels y_true y_pred = [c].
Proof.
  intros Hne Ht Hp. unfold Metrics.unique_labels.
  assert (Hall : Forall (fun y => y = c) (y_true ++ y_pred))
    by (apply Forall_app; split; assumption).
  assert (Hne' : y_true ++ y_pred <> [])
    by (destruct y_true; [congruence|discriminate]).
  rewrite (list_max_single Hne' Hall).
  rewrite <- (filter_seq_eqb c). apply filter_ext.
  intros k. apply (existsb_single k Hne' Hall).
Qed.

Lemma count_pairs_all (f : nat -> nat -> bool) (a b : list nat) :
  length a = length b ->
  (forall x y, In x a -> In y b -> f x y = true) ->
  Sklearn.count_pairs f a b = length a.
Proof.
  unfold Sklearn.count_pairs. revert b.
  induction a as [|x a IH]; intros [|y b] Hlen Hf; simpl in *; try lia.
  rewrite Hf by auto. simpl. f_equal. apply IH; [lia|].
  intros; apply Hf; auto.
Qed.

Lemma count_pairs_ext (f g : nat -> nat -> bool) (a b : list nat) :
  (forall x y, In x a -> In y b -> f x y = g x y) ->
  Sklearn.count_pairs f a b = Sklearn.count_pairs g a b.
Proof.
  unfold Sklearn.count_pairs. revert b.
  induction a as [|x a IH]; intros [|y b] Hf; simpl in *; try reflexivity.
  rewrite (Hf x y) by auto.
  assert (IH' : length (filter (fun p => f (fst p) (snd p)) (combine a b))
                = length (filter (fun p => g (fst p) (snd p)) (combine a b)))
    by (apply IH; intros; apply Hf; auto).
  destruct (g x y); simpl; congruence.
Qed.

Lemma binary_cells_total (a b : list nat) :
  length a = length b ->
  Forall (fun y => y <= 1) a -> Forall (fun y => y <= 1) b ->
  Sklearn.count_pairs (fun t p => (t =? 0) && (p =? 0)) a b
  + Sklearn.count_pairs (fun t p => (t =? 0) && (p =? 1)) a b
  + Sklearn.count_pairs (fun t p => (t =? 1) && (p =? 0)) a b
  + Sklearn.count_pairs (fun t p => (t =? 1) && (p =? 1)) a b
  = length a.
Proof.
  unfold Sklearn.count_pairs. intros Hlen Ha. revert b Hlen.
  induction Ha as [|x a Hx _ IH]; intros [|y b] Hlen Hb; simpl in *;
    try lia.
  inversion Hb as [|? ? Hy Hb']; subst.
  specialize (IH b ltac:(lia) Hb').
  assert (Hx' : x = 0 \/ x = 1) by lia.
  assert (Hy' : y = 0 \/ y = 1) by lia.
  destruct Hx' as [-> | ->], Hy' as [-> | ->]; simpl; lia.
Qed.

End ReportFacts.

(** X16. On index-aligned, non-empty label sequences the accuracy is the
    number of agreements over the number of samples, lies between 0 and 1,
    and is 1 exactly when every prediction equals its true label. *)
Theorem accuracy_score_range (y_true y_pred : list nat)
  (Hlen : length y_true = length y_pred)
  (Hne : y_true <> []) :
  exists q : Q,
    Metrics.accuracy_score y_true y_pred = Ok (Numpy.Finite q) /\
    (q == Z.of_nat (count_eq y_true y_pred) # Pos.of_nat (length y_true))%Q /\
    (0 <= q <= 1)%Q /\
    ((q == 1)%Q <-> y_true = y_pred).
Proof.
  assert (HN : 0 < length y_true)
    by (destruct y_true; [congruence|simpl; lia]).
  pose proof (count_eq_le y_true y_pred) as Hle.
  pose proof (@count_eq_full y_true y_pred Hlen) as Hfull.
  exists (Z.of_nat (count_eq y_true y_pred)
          # Z.to_pos (Z.of_nat (length y_true)))%Q.
  assert (Hpos : Z.pos (Z.to_pos (Z.of_nat (length y_true)))
                 = Z.of_nat (length y_true))
    by (apply Z2Pos.id; lia).
  split; [|split; [|split]].
  - unfold Metrics.accuracy_score. rewrite Hlen, Nat.eqb_refl. cbn [negb].
    rewrite true_divide_pos by lia. reflexivity.
  - unfold Qeq. cbn [Qnum Qden].
    replace (Z.pos (Pos.of_nat (length y_true)))
      with (Z.of_nat (length y_true)); [rewrite Hpos; reflexivity|].
    destruct (length y_true) as [|n]; [lia|].
    rewrite <- Pos.of_nat_succ, Zpos_P_of_succ_nat. lia.
  - unfold Qle. cbn [Qnum Qden]. rewrite Hpos. lia.
  - unfold Qeq. cbn [Qnum Qden]. rewrite Hpos. rewrite <- Hfull. lia.
Qed.

Lemma accuracy_score_range_witness :
  exists q : Q,
    Metrics.accuracy_score [0; 1; 1; 0] [1; 1; 0; 0] = Ok (Numpy.Finite q) /\
    (q == 2 # 4)%Q.
Proof.
  destruct (@accuracy_score_range [0; 1; 1; 0] [1; 1; 0; 0])
    as (q & Hq & Hv & _); [reflexivity|discriminate|].
  exists q. split; [exact Hq|exact Hv].
Defined.

Section PrecisionMore.

Lemma positives_total (y_true y_pred : list nat) :
  length y_true = length y_pred ->
  Sklearn.true_positives 1 y_true y_pred
  + Sklearn.false_positives 1 y_true y_pred
  = count_occ Nat.eq_dec y_pred 1.
Proof.
  unfold Sklearn.true_positives, Sklearn.false_positives, Sklearn.count_pairs.
  revert y_pred. induction y_true as [|t a IH]; intros [|p b] Hlen;
    simpl in *; try lia.
  specialize (IH b ltac:(lia)).
  destruct (Nat.eq_dec p 1) as [->|Hp].
  - destruct (t =? 1); simpl; lia.
  - replace (p =? 1) with false by (symmetry; apply Nat.eqb_neq; exact Hp).
    rewrite !andb_false_r. exact IH.
Qed.

End PrecisionMore.

(** X17. On index-aligned label sequences over {0,1} in which both labels
    occur, the confusion matrix is the 2x2 array [[TN, FP], [FN, TP]]: its
    second column holds the false and the true positives that the precision
    is computed from, its four entries add up to the number of samples, and
    printing it returns after five lines. *)
Theorem confusion_matrix_binary (y_true y_pred : list nat)
  (Hlen : length y_true = length y_pred)
  (Htrue : Forall (fun y => y <= 1) y_true)
  (Hpred : Forall (fun y => y <= 1) y_pred)
  (H0 : In 0 (y_true ++ y_pred))
  (H1 : In 1 (y_true ++ y_pred)) :
  exists tn fp fn tp : Z,
    Metrics.confusion_matrix y_true y_pred = Ok [[tn; fp]; [fn; tp]] /\
    fp = Z.of_nat (Sklearn.false_positives 1 y_true y_pred) /\
    tp = Z.of_nat (Sklearn.true_positives 1 y_true y_pred) /\
    (tn + fp + fn + tp = Z.of_nat (length y_true))%Z /\
    snd (print_confusion_matrix [[tn; fp]; [fn; tp]]) = Ok tt /\
    length (fst (print_confusion_matrix [[tn; fp]; [fn; tp]])) = 5.
Proof.
  assert (Hall : Forall (fun y => y <= 1) (y_true ++ y_pred))
    by (apply Forall_app; split; assumption).
  do 4 eexists. split; [|split; [|split; [|split; [|split]]]].
  - unfold Metrics.confusion_matrix. rewrite Hlen, Nat.eqb_refl.
    cbn [negb]. rewrite (unique_labels_binary _ _ Hall H0 H1).
    cbn [map]. reflexivity.
  - f_equal. apply count_pairs_ext. intros t p Ht Hp.
    rewrite Forall_forall in Htrue. specialize (Htrue t Ht).
    assert (Ht' : t = 0 \/ t = 1) by lia.
    destruct Ht' as [-> | ->]; reflexivity.
  - reflexivity.
  - pose proof (@binary_cells_total y_true y_pred Hlen Htrue Hpred). lia.
  - reflexivity.
  - reflexivity.
Qed.

Lemma confusion_matrix_binary_witness :
  exists tn fp fn tp : Z,
    Metrics.confusion_matrix [0; 1; 1; 0] [1; 1; 0; 0]
    = Ok [[tn; fp]; [fn; tp]] /\
    (tn + fp + fn + tp = 4)%Z.
Proof.
  destruct (@confusion_matrix_binary [0; 1; 1; 0] [1; 1; 0; 0])
    as (tn & fp & fn & tp & Hcm & _ & _ & Hsum & _).
  - reflexivity.
  - repeat constructor.
  - repeat constructor.
  - simpl; auto.
  - simpl; auto.
  - exists tn, fp, fn, tp. split; [exact Hcm|exact Hsum].
Defined.

Example confusion_matrix_example :
  Metrics.confusion_matrix [0; 1; 1; 0] [1; 1; 0; 0]
  = Ok [[1; 1]; [1; 1]]%Z.
Proof. reflexivity. Qed.

(** The printed lines of that matrix. *)
Example print_confusion_matrix_example :
  print_confusion_matrix [[12; 3]; [4; 567]]%Z
  = (["Confusion Matrix:"%string;
      "                Predicted"%string;
      "                 0      1"%string;
      "Actual 0     TN: 12    FP: 3    "%string;
      "       1     FN: 4     TP: 567  "%string],
     Ok tt).
Proof. reflexivity. Qed.

(** X18. On index-aligned label sequences over {0,1} with at least one
    predicted 1 the precision is TP over the number of predicted 1s,
    whatever the zero-division fallback, and lies between 0 and 1. *)
Theorem precision_score_ratio (y_true y_pred : list nat) (zero_division : Q)
  (Hlen : length y_true = length y_pred)
  (Htrue : Forall (fun y => y <= 1) y_true)
  (Hpred : Forall (fun y => y <= 1) y_pred)
  (Hsome : In 1 y_pred) :
  exists q : Q,
    Sklearn.precision_score y_true y_pred zero_division = Ok q /\
    (q == Z.of_nat (Sklearn.true_positives 1%nat y_true y_pred)
          # Pos.of_nat (count_occ Nat.eq_dec y_pred 1%nat))%Q /\
    (0 <= q <= 1)%Q.
Proof.
  pose proof (@positives_total y_true y_pred Hlen) as Htot.
  assert (Hcount : 0 < count_occ Nat.eq_dec y_pred 1)
    by (apply (count_occ_In Nat.eq_dec); exact Hsome).
  assert (Hall : Forall (fun y => y <= 1) (y_true ++ y_pred))
    by (apply Forall_app; split; assumption).
  destruct (binary_present_labels Hall) as [H2 _].
  assert (Hin : existsb (Nat.eqb 1) (nodup Nat.eq_dec (y_true ++ y_pred))
                = true).
  { apply existsb_eqb_In, nodup_In, in_or_app. right. exact Hsome. }
  assert (Hne : (length y_true =? 0) = false).
  { rewrite Hlen. destruct y_pred; [contradiction|reflexivity]. }
  unfold Sklearn.precision_score.
  rewrite Hne, Hlen, Nat.eqb_refl. cbn [negb].
  replace (2 <? length (nodup Nat.eq_dec (y_true ++ y_pred))) with false
    by (symmetry; apply Nat.ltb_ge; exact H2).
  rewrite Hin. cbn [negb andb].
  destruct (Sklearn.true_positives 1 y_true y_pred
            + Sklearn.false_positives 1 y_true y_pred) as [|d] eqn:E;
    [lia|].
  eexists. split; [reflexivity|].
  rewrite <- Htot, <- Pos.of_nat_succ.
  split; [reflexivity|].
  unfold Qle. cbn [Qnum Qden]. rewrite Zpos_P_of_succ_nat. lia.
Qed.

Lemma precision_score_ratio_witness :
  exists q : Q,
    Sklearn.precision_score [0; 1; 1; 0] [1; 1; 0; 0] 1 = Ok q /\
    (q == 1 # 2)%Q.
Proof.
  destruct (@precision_score_ratio [0; 1; 1; 0] [1; 1; 0; 0] 1%Q)
    as (q & Hq & Hv & _).
  - reflexivity.
  - repeat constructor.
  - repeat constructor.
  - simpl; auto.
  - exists q. split; [exact Hq|exact Hv].
Defined.

(** X19. When every true label and every prediction is one and the same
    class, the confusion matrix has the single entry [N], and printing it
    raises [IndexError] after the three header lines: the report reads
    [cm[0, 1]], which a 1x1 array does not have. *)
Theorem print_confusion_matrix_single_class (c : nat)
  (y_true y_pred : list nat)
  (Hlen : length y_true = length y_pred)
  (Hne : y_true <> [])
  (Htrue : Forall (fun y => y = c) y_true)
  (Hpred : Forall (fun y => y = c) y_pred) :
  Metrics.confusion_matrix y_true y_pred
  = Ok [[Z.of_nat (length y_true)]] /\
  print_confusion_matrix [[Z.of_nat (length y_true)]]
  = (["Confusion Matrix:"%string;
      "                Predicted"%string;
      "                 0      1"%string],
     Raise IndexError).
Proof.
  split; [|reflexivity].
  unfold Metrics.confusion_matrix. rewrite <- Hlen, Nat.eqb_refl.
  cbn [negb].
  rewrite (unique_labels_single Hne Htrue Hpred). cbn [map].
  rewrite count_pairs_all; [reflexivity|exact Hlen|].
  intros x y Hx Hy. rewrite Forall_forall in Htrue, Hpred.
  rewrite (Htrue x Hx), (Hpred y Hy), Nat.eqb_refl. reflexivity.
Qed.

Lemma print_confusion_matrix_single_class_witness :
  Metrics.confusion_matrix [0; 0; 0] [0; 0; 0] = Ok [[3%Z]] /\
  snd (print_confusion_matrix [[3%Z]]) = Raise IndexError.
Proof.
  destruct (@print_confusion_matrix_single_class 0 [0; 0; 0] [0; 0; 0])
    as [Hcm Hprint].
  - reflexivity.
  - discriminate.
  - repeat constructor.
  - repeat constructor.
  - split; [exact Hcm|]. exact (f_equal snd Hprint).
Defined.

(** ** The data loaders *)

From Stdlib Require Import Permutation.

Section LoaderFacts.

Lemma chunks_concat {A : Type} (fuel n : nat) (l : list A) :
  0 < n -> length l <= fuel -> concat (chunks fuel n l) = l.
Proof.
  intros Hn. revert l. induction fuel as [|f IH]; intros l Hl.
  - destruct l; [reflexivity|simpl in Hl; lia].
  - destruct l as [|x l']; [reflexivity|].
    cbn [chunks concat]. rewrite IH.
    + apply firstn_skipn.
    + rewrite length_skipn. cbn [length] in *. lia.
Qed.

Lemma chunks_sizes {A : Type} (fuel n : nat) (l : list A) :
  0 < n ->
  Forall (fun c => 1 <= length c <= n) (chunks fuel n l).
Proof.
  intros Hn. revert l. induction fuel as [|f IH]; intros l.
  - destruct l; constructor.
  - destruct l as [|x l']; [constructor|].
    cbn [chunks]. constructor; [|apply IH].
    rewrite length_firstn. cbn [length]. lia.
Qed.

Lemma chunks_length {A : Type} (fuel n : nat) (l : list A) :
  0 < n -> length l <= fuel ->
  length (chunks fuel n l) = (length l + n - 1) / n.
Proof.
  intros Hn. revert l. induction fuel as [|f IH]; intros l Hl.
  - destruct l; [|simpl in Hl; lia].
    simpl. symmetry. apply Nat.div_small. lia.
  - destruct l as [|x l'].
    + simpl. symmetry. apply Nat.div_small. lia.
    + cbn [chunks length]. rewrite IH by (rewrite length_skipn; cbn [length] in *; lia).
      rewrite length_skipn. set (L := length (x :: l')).
      assert (HL : 1 <= L) by (unfold L; simpl; lia).
      change (S (length l')) with L.
      destruct (le_lt_dec L n) as [Hle|Hgt].
      * replace (L - n) with 0 by lia.
        replace ((0 + n - 1) / n) with 0
          by (symmetry; apply Nat.div_small; lia).
        apply (Nat.div_unique _ _ _ (L - 1)); lia.
      * replace (L + n - 1) with ((L - n + n - 1) + 1 * n) by lia.
        rewrite Nat.div_add by lia. lia.
Qed.

Lemma fetch_app (dataset : list sample) (a b : list nat) :
  fetch dataset (a ++ b) = fetch dataset a ++ fetch dataset b.
Proof. unfold fetch. apply flat_map_app. Qed.

Lemma fetch_concat (dataset : list sample) (cs : list (list nat)) :
  concat (map (fetch dataset) cs) = fetch dataset (concat cs).
Proof.
  induction cs as [|c cs IH]; cbn [map concat]; [reflexivity|].
  rewrite IH, fetch_app. reflexivity.
Qed.

Lemma fetch_seq (pre dataset : list sample) :
  fetch (pre ++ dataset) (seq (length pre) (length dataset)) = dataset.
Proof.
  revert pre. induction dataset as [|s ds IH]; intros pre; [reflexivity|].
  cbn [length seq]. unfold fetch. cbn [flat_map].
  rewrite nth_error_app2, Nat.sub_diag by lia. cbn [nth_error app].
  f_equal.
  replace (pre ++ s :: ds) with ((pre ++ [s]) ++ ds)
    by (rewrite <- app_assoc; reflexivity).
  replace (S (length pre)) with (length (pre ++ [s]))
    by (rewrite length_app; simpl; lia).
  apply IH.
Qed.

Lemma fetch_Permutation (dataset : list sample) (order : list nat) :
  Permutation order (seq 0 (length dataset)) ->
  Permutation (fetch dataset order) dataset.
Proof.
  intros Hperm.
  rewrite <- (fetch_seq [] dataset) at 2. cbn [app length].
  unfold fetch. apply Permutation_flat_map. exact Hperm.
Qed.

Lemma fetch_length (dataset : list sample) (indices : list nat) :
  Forall (fun i => i < length dataset) indices ->
  length (fetch dataset indices) = length indices.
Proof.
  unfold fetch. induction 1 as [|i idx Hi _ IH]; cbn [flat_map];
    [reflexivity|].
  destruct (nth_error dataset i) eqn:E.
  - cbn. congruence.
  - apply nth_error_None in E. lia.
Qed.

Lemma loader_samples (dataset : list sample) (n : nat) (order : list nat) :
  0 < n ->
  all_features (DataLoader dataset n order) = map fst (fetch dataset order) /\
  all_labels (DataLoader dataset n order) = map snd (fetch dataset order).
Proof.
  intros Hn. unfold all_features, all_labels, DataLoader.
  rewrite !map_map. cbn [collate fst snd].
  pose proof (@chunks_concat nat (length order) n order Hn (Nat.le_refl _))
    as Hc.
  set (cs := chunks (length order) n order) in *.
  rewrite <- Hc, <- fetch_concat, !concat_map, !map_map.
  split; reflexivity.
Qed.

Lemma loader_length (dataset : list sample) (order : list nat) :
  length order = length dataset ->
  length (DataLoader dataset mini_batch_size order) = num_batches dataset.
Proof.
  intros Hlen. unfold DataLoader, num_batches. rewrite length_map.
  rewrite chunks_length by (unfold mini_batch_size; lia).
  rewrite Hlen. reflexivity.
Qed.

Lemma In_chunks {A : Type} (fuel n : nat) (l c : list A) (x : A) :
  In c (chunks fuel n l) -> In x c -> In x l.
Proof.
  revert l. induction fuel as [|f IH]; intros l Hc Hx.
  - destruct l; contradiction.
  - destruct l as [|y l']; [contradiction|].
    cbn [chunks] in Hc. destruct Hc as [<-|Hc].
    + rewrite <- (firstn_skipn n (y :: l')). apply in_or_app. left. exact Hx.
    + rewrite <- (firstn_skipn n (y :: l')). apply in_or_app. right.
      apply (IH _ Hc Hx).
Qed.

Lemma In_fetch (dataset : list sample) (indices : list nat) (s : sample) :
  In s (fetch dataset indices) -> In s dataset.
Proof.
  unfold fetch. intros H. apply in_flat_map in H.
  destruct H as (i & _ & Hs).
  destruct (nth_error dataset i) eqn:E; [|contradiction].
  destruct Hs as [<-|[]]. apply (nth_error_In _ _ E).
Qed.

(** The batches of a traversal over valid indices, as the loops need
    them. *)
Lemma loader_batches (dataset : list sample) (order : list nat)
  (P : sample -> Prop) :
  Forall (fun i => i < length dataset) order ->
  Forall P dataset ->
  Forall (fun b =>
            1 <= length (fst b) <= mini_batch_size /\
            length (snd b) = length (fst b) /\
            Forall P (combine (fst b) (snd b)))
    (DataLoader dataset mini_batch_size order).
Proof.
  intros Hvalid HP. unfold DataLoader. apply Forall_map.
  pose proof (@chunks_sizes nat (length order) mini_batch_size order
                ltac:(unfold mini_batch_size; lia)) as Hsizes.
  rewrite Forall_forall in *. intros idx Hin.
  assert (Hidx : Forall (fun i => i < length dataset) idx).
  { apply Forall_forall. intros i Hi. apply Hvalid.
    apply (@In_chunks nat (length order) mini_batch_size order idx i Hin Hi). }
  cbv beta. cbn [collate fst snd].
  rewrite !length_map, (@fetch_length dataset idx Hidx).
  split; [apply Hsizes, Hin|]. split; [reflexivity|].
  apply Forall_forall. intros s Hs. apply HP.
  apply (@In_fetch dataset idx).
  replace (combine (map fst (fetch dataset idx)) (map snd (fetch dataset idx)))
    with (fetch dataset idx) in Hs; [exact Hs|].
  clear. induction (fetch dataset idx) as [|[a b] l IH]; cbn;
    [reflexivity|congruence].
Qed.

End LoaderFacts.

Section LoaderLoops.

Lemma Forall_combine {A B : Type} (Qa : A -> Prop) (Qb : B -> Prop)
  (a : list A) (b : list B) :
  length b = length a ->
  Forall (fun s => Qa (fst s) /\ Qb (snd s)) (combine a b) ->
  Forall Qa a /\ Forall Qb b.
Proof.
  revert b. induction a as [|x a IH]; intros [|y b] Hlen H;
    simpl in Hlen; try lia.
  - split; constructor.
  - cbn [combine] in H. inversion H as [|? ? [Hx Hy] H']; subst.
    destruct (IH b ltac:(lia) H') as [Ha Hb].
    split; constructor; assumption.
Qed.

Lemma combine_fst_snd {A B : Type} (l : list (A * B)) :
  combine (map fst l) (map snd l) = l.
Proof.
  induction l as [|[a b] l IH]; cbn; [reflexivity|congruence].
Qed.

Lemma seq_valid (n : nat) : Forall (fun i => i < n) (seq 0 n).
Proof. apply Forall_forall. intros i Hi. apply in_seq in Hi. lia. Qed.

Lemma permutation_valid (order : list nat) (n : nat) :
  Permutation order (seq 0 n) ->
  Forall (fun i => i < n) order /\ length order = n.
Proof.
  intros Hp. split.
  - apply Forall_forall. intros i Hi.
    apply (Permutation_in _ Hp) in Hi. apply in_seq in Hi. lia.
  - rewrite (Permutation_length Hp). apply length_seq.
Qed.

Lemma loader_test_batches (num_input : nat) (dataset : list sample)
  (order : list nat) :
  Forall (fun i => i < length dataset) order ->
  Forall (fun s => length (fst s) = num_input) dataset ->
  Forall (test_batch_ok num_input) (DataLoader dataset mini_batch_size order).
Proof.
  intros Hvalid Hrows.
  pose proof (@loader_batches dataset order
                (fun s => length (fst s) = num_input /\ True) Hvalid) as H.
  eapply Forall_impl; [|apply H].
  - intros [x y] (Hsize & Hlen & HP). cbn [fst snd] in *.
    destruct (@Forall_combine _ _ (fun row => length row = num_input)
                (fun _ => True) x y Hlen HP) as [Hx _].
    unfold test_batch_ok. cbn [fst snd].
    split; [exact Hx|]. split; [exact Hlen|].
    intros ->. simpl in Hsize. lia.
  - eapply Forall_impl; [|exact Hrows]. intros s Hs. split; [exact Hs|exact I].
Qed.

Lemma loader_train_batches (num_input num_classes : nat)
  (dataset : list sample) (order : list nat) :
  Forall (fun i => i < length dataset) order ->
  Forall (fun s => length (fst s) = num_input /\ snd s < num_classes)
    dataset ->
  Forall (batch_ok num_input num_classes)
    (DataLoader dataset mini_batch_size order).
Proof.
  intros Hvalid Hds.
  pose proof (@loader_batches dataset order
                (fun s => length (fst s) = num_input /\ snd s < num_classes)
                Hvalid Hds) as H.
  eapply Forall_impl; [|exact H].
  intros [x y] (_ & Hlen & HP). cbn [fst snd] in *.
  destruct (@Forall_combine _ _ (fun row => length row = num_input)
              (fun label => label < num_classes) x y Hlen HP) as [Hx Hy].
  unfold batch_ok. cbn [fst snd].
  split; [exact Hx|]. split; [exact Hlen|exact Hy].
Qed.

End LoaderLoops.

(** X20. The unshuffled loader is a partition of the dataset in order: its
    batches laid end to end give back the features and the labels of the
    dataset, every batch holds between 1 and 64 samples with as many labels
    as rows, and there are [ceil(N/64)] batches, the value of
    [len(dataloader)]. *)
Theorem test_dataloader_partition (test_dataset : list sample) :
  all_features (test_dataloader test_dataset) = map fst test_dataset /\
  all_labels (test_dataloader test_dataset) = map snd test_dataset /\
  length (test_dataloader test_dataset) = num_batches test_dataset /\
  Forall (fun b => 1 <= length (fst b) <= 64 /\
                   length (snd b) = length (fst b))
    (test_dataloader test_dataset).
Proof.
  unfold test_dataloader.
  destruct (@loader_samples test_dataset mini_batch_size
              (seq 0 (length test_dataset))
              ltac:(unfold mini_batch_size; lia)) as [Hf Hl].
  pose proof (fetch_seq [] test_dataset) as Hfetch.
  cbn [app length] in Hfetch. rewrite Hfetch in Hf, Hl.
  split; [exact Hf|]. split; [exact Hl|]. split.
  - apply loader_length. apply length_seq.
  - pose proof (@loader_batches test_dataset (seq 0 (length test_dataset))
                  (fun _ => True) (seq_valid _)) as H.
    eapply Forall_impl; [|apply H].
    + intros b (Hs & Hlen & _). split; assumption.
    + apply Forall_forall. intros; exact I.
Qed.

(** X21. Evaluation over the test split: for a non-empty test dataset whose
    rows have [num_input] features, the loop over its unshuffled loader
    returns the labels of the dataset in dataset order and, for every
    sample, the first maximal score of the forward pass over the whole
    dataset. *)
Theorem test_ANN_model_on_dataset (num_input hidden1_size num_classes : nat)
  (test_dataset : list sample) (w : world)
  (Hclasses : 0 < num_classes)
  (Hm : MLP_shape (ANN_model w) num_input hidden1_size num_classes)
  (Hrows : Forall (fun s => length (fst s) = num_input) test_dataset)
  (Hne : test_dataset <> []) :
  exists (out : list (list R)) (predicted_labels : list nat),
    snd (test_ANN_model (test_dataloader test_dataset) w)
    = Ok (predicted_labels, map snd test_dataset) /\
    forward (ANN_model w) (map fst test_dataset) = Ok out /\
    Forall2 first_max out predicted_labels /\
    length predicted_labels = length test_dataset.
Proof.
  assert (Hok : Forall (test_batch_ok num_input)
                  (test_dataloader test_dataset))
    by (apply loader_test_batches; [apply seq_valid|exact Hrows]).
  destruct (@loader_samples test_dataset mini_batch_size
              (seq 0 (length test_dataset))
              ltac:(unfold mini_batch_size; lia)) as [Hf Hl].
  pose proof (fetch_seq [] test_dataset) as Hfetch.
  cbn [app length] in Hfetch. rewrite Hfetch in Hf, Hl.
  fold (test_dataloader test_dataset) in Hf, Hl.
  assert (Hne' : test_dataloader test_dataset <> []).
  { intros E. rewrite E in Hl. destruct test_dataset; [congruence|].
    discriminate. }
  destruct (@test_ANN_model_run num_input hidden1_size num_classes
              (test_dataloader test_dataset) w Hclasses Hm Hok Hne')
    as (preds & Hrun & Hp).
  rewrite Hf in Hp. rewrite Hl in Hrun.
  assert (Hwidth : Forall (fun row => length row = num_input)
                     (map fst test_dataset))
    by (apply Forall_map; exact Hrows).
  destruct (@forward_defined _ num_input hidden1_size num_classes _
              Hm Hwidth) as (out & Hout & Hshape).
  rewrite Hout in Hp. cbn [rbind] in Hp.
  destruct (@argmax_rows_ok num_classes Hclasses out (proj2 Hshape))
    as (preds' & Hp' & Hlen & _ & Hmax).
  assert (preds' = preds) by congruence. subst preds'.
  exists out, preds. rewrite Hrun. cbn [snd].
  split; [reflexivity|]. split; [exact Hout|]. split; [exact Hmax|].
  rewrite Hlen, (proj1 Hshape). apply length_map.
Qed.

Lemma test_ANN_model_on_dataset_witness :
  exists (out : list (list R)) (predicted_labels : list nat),
    snd (test_ANN_model (test_dataloader [([1; 2; 3]%R, 0)]) Examples.start)
    = Ok (predicted_labels, [0]) /\
    length predicted_labels = 1.
Proof.
  destruct (@test_ANN_model_on_dataset 3 2 2 [([1; 2; 3]%R, 0)]
              Examples.start)
    as (out & p & Hrun & _ & _ & Hlen).
  - lia.
  - exact example_model_shape.
  - repeat constructor.
  - discriminate.
  - exists out, p. split; assumption.
Defined.

(** X22. Over a training dataset with at least one sample the shuffling
    loader is constructed, and one traversal of it, whatever permutation of
    the indices the sampler draws, has the samples of the dataset in its
    batches, each once (a permutation of the dataset), in [ceil(N/64)]
    batches. *)
Theorem train_dataloader_epoch (train_dataset : list sample)
  (randperm : nat -> list nat) (epoch_cnt : nat)
  (Hne : train_dataset <> [])
  (Hperm : Permutation (randperm epoch_cnt)
             (seq 0 (length train_dataset))) :
  exists loader : nat -> list batch,
    train_dataloader train_dataset randperm = Ok loader /\
    Permutation
      (combine (all_features (loader epoch_cnt))
         (all_labels (loader epoch_cnt)))
      train_dataset /\
    length (loader epoch_cnt) = num_batches train_dataset.
Proof.
  unfold train_dataloader.
  destruct train_dataset as [|s train_dataset'] eqn:E; [contradiction|].
  rewrite <- E in *. clear E Hne.
  eexists. split; [reflexivity|]. cbv beta.
  destruct (@loader_samples train_dataset mini_batch_size
              (randperm epoch_cnt) ltac:(unfold mini_batch_size; lia))
    as [Hf Hl].
  rewrite Hf, Hl, combine_fst_snd. split.
  - apply fetch_Permutation. exact Hperm.
  - apply loader_length. apply (@permutation_valid _ _ Hperm).
Qed.

Lemma train_dataloader_epoch_witness :
  exists loader : nat -> list batch,
    train_dataloader [([1]%R, 0); ([2]%R, 1)] (fun _ => [1; 0]) = Ok loader /\
    Permutation
      (combine (all_features (loader 0)) (all_labels (loader 0)))
      [([1]%R, 0); ([2]%R, 1)].
Proof.
  destruct (@train_dataloader_epoch [([1]%R, 0); ([2]%R, 1)]
              (fun _ => [1; 0]) 0) as (loader & Hmk & Hp & _).
  - discriminate.
  - simpl. apply perm_swap.
  - exists loader. split; [exact Hmk|exact Hp].
Defined.

(** The shuffling loader of a dataset with no sample is not constructed. *)
Example train_dataloader_empty (randperm : nat -> list nat) :
  train_dataloader [] randperm = Raise ValueError.
Proof. reflexivity. Qed.

(** X23. Training over a dataset of [N >= 1] samples with rows of
    [num_input] features and labels below [num_classes]: the shuffling
    loader is constructed and, whatever permutations the sampler draws, the
    loop over it returns [num_epochs * ceil(N/64)] losses. *)
Theorem train_losses_per_dataset
  (loss_func : list (list R) -> list nat -> result R)
  (autograd : MLP -> list (list R) -> list nat -> Gradients)
  (num_input hidden1_size num_classes : nat)
  (num_epochs : Z) (train_dataset : list sample)
  (randperm : nat -> list nat) (w : world)
  (Hengine : forall m x y,
      MLP_shape m num_input hidden1_size num_classes ->
      Gradients_shape (autograd m x y) num_input hidden1_size num_classes)
  (Hloss : forall out y,
      has_shape out (length y) num_classes ->
      Forall (fun label => label < num_classes) y ->
      exists l, loss_func out y = Ok l)
  (Hepochs : (0 <= num_epochs)%Z)
  (Hw : well_shaped num_input hidden1_size num_classes w)
  (Hne : train_dataset <> [])
  (Hperm : forall e, Permutation (randperm e) (seq 0 (length train_dataset)))
  (Hds : Forall (fun s => length (fst s) = num_input /\ snd s < num_classes)
           train_dataset) :
  exists (loader : nat -> list batch) (w' : world) (train_losses : list R),
    train_dataloader train_dataset randperm = Ok loader /\
    train_ANN_model loss_func autograd num_epochs loader w
    = (w', Ok train_losses) /\
    Z.of_nat (length train_losses)
    = (num_epochs * Z.of_nat (num_batches train_dataset))%Z.
Proof.
  unfold train_dataloader.
  destruct train_dataset as [|s train_dataset'] eqn:E; [contradiction|].
  rewrite <- E in *. clear E Hne.
  set (loader := fun epoch_cnt =>
         DataLoader train_dataset mini_batch_size (randperm epoch_cnt)).
  assert (Hok : forall e, (Z.of_nat e < num_epochs)%Z ->
            Forall (batch_ok num_input num_classes) (loader e)).
  { intros e _. apply loader_train_batches; [|exact Hds].
    apply (@permutation_valid _ _ (Hperm e)). }
  assert (HB : forall e, (Z.of_nat e < num_epochs)%Z ->
            length (loader e) = num_batches train_dataset).
  { intros e _. apply loader_length.
    apply (@permutation_valid _ _ (Hperm e)). }
  destruct (@train_ANN_model_run loss_func autograd num_input hidden1_size
              num_classes Hengine Hloss num_epochs loader w Hw Hok)
    as (losses & Hrun & Hhist & _ & _).
  exists loader. eexists. exists losses.
  split; [reflexivity|]. split; [exact Hrun|].
  rewrite <- (@processed_length loader
                num_epochs (num_batches train_dataset) Hepochs HB).
  rewrite <- (@loss_history_length loss_func autograd
                (processed loader num_epochs)
                (mkWorld (set_training true (ANN_model w)) (optimizer w)
                   (calls w))).
  rewrite <- Hhist, length_map. reflexivity.
Qed.

Lemma train_losses_per_dataset_witness :
  exists (loader : nat -> list batch) (w' : world) (train_losses : list R),
    train_dataloader [([1; 2; 3]%R, 1); ([0; 0; 1]%R, 0)] (fun _ => [1; 0])
    = Ok loader /\
    train_ANN_model Examples.loss_func Examples.engine 3 loader
      Examples.start
    = (w', Ok train_losses) /\
    Z.of_nat (length train_losses) = 3%Z.
Proof.
  destruct (@train_losses_per_dataset Examples.loss_func Examples.engine
              3 2 2 3%Z [([1; 2; 3]%R, 1); ([0; 0; 1]%R, 0)]
              (fun _ => [1; 0]) Examples.start
              example_engine_shape example_loss_defined ltac:(lia)
              example_start_shaped)
    as (loader & w' & losses & Hmk & Hrun & Hlen).
  - discriminate.
  - intros e. simpl. apply perm_swap.
  - repeat constructor.
  - exists loader, w', losses.
    split; [exact Hmk|]. split; [exact Hrun|exact Hlen].
Defined.
